(** * Resume analyser: cleaning, detection and scoring (src/Hack/analyze.py)

    A shallow embedding of [_clean_extracted_text], [_count_words_robust]
    and [analyze_resume].

    - A Python [str] is a sequence of Unicode code points: [list N].
    - A Python [int] is a [Z]; a Python [float] is an IEEE 754 binary64
      value, here Rocq's primitive [float].
    - Operations that can raise return [option]; [None] stands for the
      exception.
    - [str.lower] is a builtin whose full Unicode tables are not part of the
      repository: the analyser is parameterised by it, and
      [lower_latin1] is the instance used to run concrete documents. *)

From Stdlib Require Import ZArith NArith List Bool String Ascii Floats Lia.
Import ListNotations.

Open Scope Z_scope.

(* ================================================================= *)
(** ** Python strings *)

Definition codepoint := N.
Definition str := list codepoint.

(** An ASCII literal of the source as a [str]. *)
Definition lit (s : string) : str := map N_of_ascii (list_ascii_of_string s).

Definition LF : codepoint := 10%N.
Definition CR : codepoint := 13%N.
Definition SP : codepoint := 32%N.
Definition TAB : codepoint := 9%N.
Definition NBSP : codepoint := 160%N.

Fixpoint str_eqb (a b : str) : bool :=
  match a, b with
  | [], [] => true
  | x :: a', y :: b' => (x =? y)%N && str_eqb a' b'
  | _, _ => false
  end.

(** Truthiness of a string: [if s] / [if not s]. *)
Definition truthy (s : str) : bool :=
  match s with [] => false | _ :: _ => true end.

(** [len(s)] *)
Definition len (s : str) : Z := Z.of_nat (List.length s).

(** [Py_UNICODE_ISSPACE]: the code points removed by [str.strip()] and
    matched by [\s] in a [str] pattern. *)
Definition isspace (c : codepoint) : bool :=
  ((9 <=? c) && (c <=? 13) || (28 <=? c) && (c <=? 32)
   || (c =? 133) || (c =? 160) || (c =? 5760)
   || (8192 <=? c) && (c <=? 8202)
   || (c =? 8232) || (c =? 8233) || (c =? 8239) || (c =? 8287)
   || (c =? 12288))%N.

(** [s.lstrip()] *)
Fixpoint lstrip (s : str) : str :=
  match s with
  | [] => []
  | c :: r => if isspace c then lstrip r else s
  end.

(** [s.rstrip()] *)
Fixpoint rstrip (s : str) : str :=
  match s with
  | [] => []
  | c :: r =>
      match rstrip r with
      | [] => if isspace c then [] else [c]
      | r' => c :: r'
      end
  end.

(** [s.strip()] *)
Definition strip (s : str) : str := rstrip (lstrip s).

(** [s.replace("\r\n", "\n")] *)
Fixpoint replace_crlf (s : str) : str :=
  match s with
  | [] => []
  | c :: r =>
      match r with
      | d :: r' =>
          if ((c =? CR) && (d =? LF))%N then LF :: replace_crlf r'
          else c :: replace_crlf r
      | [] => [c]
      end
  end.

(** [s.replace("\r", "\n")] *)
Definition replace_cr (s : str) : str :=
  map (fun c => if (c =? CR)%N then LF else c) s.

(** [s.split(sep)] for a one-character separator: never the empty list. *)
Fixpoint split_on (sep : codepoint) (s : str) : list str :=
  match s with
  | [] => [[]]
  | c :: r =>
      if (c =? sep)%N then [] :: split_on sep r
      else match split_on sep r with
           | [] => [[c]]
           | l :: ls => (c :: l) :: ls
           end
  end.

(** [sep.join(parts)] *)
Fixpoint join (sep : str) (parts : list str) : str :=
  match parts with
  | [] => []
  | [p] => p
  | p :: ps => p ++ sep ++ join sep ps
  end.

(** [re.sub(r"[class]+", " ", s)]: every maximal run of characters of the
    class becomes one space.  [in_run] tells that the previous character
    belonged to the run being replaced. *)
Fixpoint sub_runs (cls : codepoint -> bool) (in_run : bool) (s : str) : str :=
  match s with
  | [] => []
  | c :: r =>
      if cls c then
        if in_run then sub_runs cls true r else SP :: sub_runs cls true r
      else c :: sub_runs cls false r
  end.

Definition re_sub_runs (cls : codepoint -> bool) (s : str) : str :=
  sub_runs cls false s.

(** The class [[\t\u00A0]]. *)
Definition is_tab_nbsp (c : codepoint) : bool := ((c =? TAB) || (c =? NBSP))%N.

(** [p] is a prefix of [s]. *)
Fixpoint starts_with (p s : str) : bool :=
  match p, s with
  | [], _ => true
  | _ :: _, [] => false
  | a :: p', b :: s' => (a =? b)%N && starts_with p' s'
  end.

(** [p in s] *)
Fixpoint contains (s p : str) : bool :=
  starts_with p s ||
  match s with
  | [] => false
  | _ :: s' => contains s' p
  end.

(** [sum(1 for x in xs if f x)] *)
Fixpoint count_if {A : Type} (f : A -> bool) (xs : list A) : Z :=
  match xs with
  | [] => 0
  | x :: r => if f x then 1 + count_if f r else count_if f r
  end.

(* ================================================================= *)
(** ** collections.Counter over strings *)

Definition counter := list (str * Z).

(** [counts[x]]: a missing key reads as 0. *)
Fixpoint counter_get (c : counter) (x : str) : Z :=
  match c with
  | [] => 0
  | (k, n) :: r => if str_eqb k x then n else counter_get r x
  end.

(** [counts[x] += 1] *)
Fixpoint counter_incr (c : counter) (x : str) : counter :=
  match c with
  | [] => [(x, 1)]
  | (k, n) :: r => if str_eqb k x then (k, n + 1) :: r else (k, n) :: counter_incr r x
  end.

(** [Counter(iterable)] *)
Definition Counter (xs : list str) : counter :=
  fold_left counter_incr xs [].

(* ================================================================= *)
(** ** The Cleaner: [_clean_extracted_text] *)

(** [lines = [ln.strip() for ln in text.split("\n")]] after the newlines are
    unified. *)
Definition stripped_lines (raw_text : str) : list str :=
  let text := replace_cr (replace_crlf raw_text) in
  map strip (split_on LF text).

(** The loop of lines 135-141: empty lines and short lines repeated six
    times or more are skipped, the others appended to [filtered]. *)
Definition keep_line (counts : counter) (ln : str) : bool :=
  if negb (truthy ln) then false
  else if (6 <=? counter_get counts ln) && (len ln <=? 80) then false
  else true.

Definition filtered_lines (raw_text : str) : list str :=
  let lines := stripped_lines raw_text in
  let counts := Counter (filter truthy lines) in
  filter (keep_line counts) lines.

Definition _clean_extracted_text (raw_text : str) : str :=
  if negb (truthy raw_text) then []
  else
    let cleaned := join [LF] (filtered_lines raw_text) in
    let cleaned := re_sub_runs is_tab_nbsp cleaned in
    strip (re_sub_runs isspace cleaned).

(* ================================================================= *)
(** ** The tokenizer: [_count_words_robust] *)

(** The class [[A-Za-z0-9À-ÖØ-öø-ÿ]]. *)
Definition is_word_char (c : codepoint) : bool :=
  ((65 <=? c) && (c <=? 90) || (97 <=? c) && (c <=? 122)
   || (48 <=? c) && (c <=? 57)
   || (192 <=? c) && (c <=? 214) || (216 <=? c) && (c <=? 246)
   || (248 <=? c) && (c <=? 255))%N.

(** The class [[-']]. *)
Definition is_joiner (c : codepoint) : bool := ((c =? 45) || (c =? 39))%N.

(** Number of non-overlapping leftmost matches of
    [[W]+(?:[-'][W]+)*].  [in_tok] tells that the scan is inside a match:
    a word character then continues it, and so does a joiner that is
    followed by a word character; anything else ends it. *)
Fixpoint count_tokens (in_tok : bool) (s : str) : Z :=
  match s with
  | [] => 0
  | c :: r =>
      if is_word_char c then
        (if in_tok then 0 else 1) + count_tokens true r
      else if in_tok && is_joiner c
                && match r with d :: _ => is_word_char d | [] => false end
      then count_tokens true r
      else count_tokens false r
  end.

Definition _count_words_robust (text : str) : Z :=
  if negb (truthy text) then 0 else count_tokens false text.

(* ================================================================= *)
(** ** Python numbers *)

(** The binary64 value nearest to [z], ties to even; an infinity when [z]
    is out of range. *)
Definition nearest_float (z : Z) : float :=
  SF2Prim (binary_normalize 53 1024 z 0 false).

(** [float(z)], also the conversion of an [int] operand next to a float: an
    integer too large for a float raises OverflowError. *)
Definition float_of_int (z : Z) : option float :=
  let f := nearest_float z in
  if PrimFloat.is_infinity f then None else Some f.

(** [min(a, b)] on floats: [b] only when [b < a]. *)
Definition float_min (a b : float) : float :=
  if PrimFloat.ltb b a then b else a.

(** The integer nearest to [m * 2^e], ties to the even one. *)
Definition round_half_even (m e : Z) : Z :=
  if 0 <=? e then m * 2 ^ e
  else
    let d := 2 ^ (- e) in
    let q := m / d in
    match (2 * (m mod d)) ?= d with
    | Lt => q
    | Gt => q + 1
    | Eq => if Z.even q then q else q + 1
    end.

(** [round(x)] with one argument: an [int]; raises on infinities and NaN. *)
Definition py_round (x : float) : option Z :=
  match Prim2SF x with
  | S754_zero _ => Some 0
  | S754_finite s m e =>
      let n := round_half_even (Zpos m) e in
      Some (if s then - n else n)
  | S754_infinity _ => None
  | S754_nan => None
  end.

(** The integer a float is exactly equal to, if there is one. *)
Definition exact_int (x : float) : option Z :=
  match Prim2SF x with
  | S754_zero _ => Some 0
  | S754_finite s m e =>
      if 0 <=? e then Some ((if s then -1 else 1) * (Zpos m * 2 ^ e))
      else if Zpos m mod 2 ^ (- e) =? 0
           then Some ((if s then -1 else 1) * (Zpos m / 2 ^ (- e)))
           else None
  | S754_infinity _ => None
  | S754_nan => None
  end.

(** Sequencing of computations that can raise. *)
Definition bind {A B : Type} (m : option A) (k : A -> option B) : option B :=
  match m with
  | Some a => k a
  | None => None
  end.

Notation "x <- m ;; k" := (bind m (fun x => k))
  (at level 61, m at next level, right associativity).

(* ================================================================= *)
(** ** Dictionaries with string keys, in insertion order *)

Definition dict (V : Type) := list (string * V).

(** [d[k]]: a missing key raises KeyError. *)
Fixpoint dict_get {V : Type} (d : dict V) (k : string) : option V :=
  match d with
  | [] => None
  | (k', v) :: r => if String.eqb k' k then Some v else dict_get r k
  end.

(** [k in names] for a list of strings. *)
Definition mem_string (k : string) (names : list string) : bool :=
  existsb (String.eqb k) names.

(* ================================================================= *)
(** ** The Detector: lines 167-189 of [analyze_resume]

    Every function takes [normalized], the lowercased cleaned text. *)

Open Scope string_scope.
Open Scope Z_scope.

(** [any(k in normalized for k in ks)] *)
Definition any_in (normalized : str) (ks : list str) : bool :=
  existsb (fun k => contains normalized k) ks.

Definition bullet_glyphs : list str :=
  [ [8226%N]; lit "- "; [SP; 8211%N; SP]; [8212%N; SP] ].

Definition sections_present (normalized : str) : dict bool :=
  [ ("education",
      any_in normalized
        (map lit ["education"; "bachelor"; "master"; "university"; "degree"]));
    ("experience",
      any_in normalized
        (map lit ["experience"; "work"; "internship"; "employment"]));
    ("skills", contains normalized (lit "skills"));
    ("projects",
      contains normalized (lit "projects") || contains normalized (lit "project"));
    ("bullets", any_in normalized bullet_glyphs) ].

Definition keywords : list str :=
  map lit
    [ "python"; "java"; "javascript"; "typescript"; "sql"; "react"; "node";
      "aws"; "azure"; "gcp"; "docker"; "kubernetes"; "graphql"; "rest"; "data";
      "machine learning"; "nlp"; "git"; "pandas"; "numpy"; "django"; "flask" ].

Definition action_verbs : list str :=
  map lit
    [ "led"; "implemented"; "built"; "created"; "designed"; "developed";
      "optimized"; "improved"; "launched"; "delivered"; "automated";
      "refactored"; "migrated"; "collaborated"; "mentored"; "analyzed";
      "deployed"; "configured"; "debugged"; "resolved" ].

(** The f-string [f" {s} "]. *)
Definition padded (s : str) : str := SP :: s ++ [SP].

Definition keyword_hits (normalized : str) : Z :=
  count_if (fun k => contains normalized k) keywords.

Definition verb_matches (normalized v : str) : bool :=
  contains (padded normalized) (padded v).

Definition action_hits (normalized : str) : Z :=
  count_if (verb_matches normalized) action_verbs.

(* ================================================================= *)
(** ** The Scorer: lines 191-249 of [analyze_resume]

    [max_keywords] and [missing_keywords] are computed by the source and
    never read; they cannot raise and are left out. *)

Definition keywords_score (keyword_hits : Z) : option float :=
  h <- float_of_int keyword_hits ;;
  Some (float_min 1 (h / 10) * 40)%float.

Close Scope string_scope.

Definition structure_components : list string :=
  ["education"; "experience"; "skills"; "projects"]%string.

Definition structure_hits (sections_present : dict bool) : Z :=
  count_if (fun kv => mem_string (fst kv) structure_components && snd kv)
           sections_present.

Definition structure_score (structure_hits : Z) : option float :=
  h <- float_of_int structure_hits ;;
  Some (h / 4 * 20)%float.

Definition action_score (action_hits : Z) : option float :=
  h <- float_of_int (Z.min action_hits 10) ;;
  Some (h / 10 * 20)%float.

Definition in_ideal_band (word_count : Z) : bool :=
  (350 <=? word_count) && (word_count <=? 600).

Definition word_count_score (word_count : Z) : Z :=
  if in_ideal_band word_count then 20
  else if (250 <=? word_count) && (word_count <=? 800) then 10
  else 0.

(** The sum of line 210; the integer [word_count_score] is converted to a
    float by the last addition. *)
Definition score_sum (ks ss acs : float) (wcs : Z) : option float :=
  w <- float_of_int wcs ;;
  Some (ks + ss + acs + w)%float.

(** [total] of line 210, before the clamp of line 249. *)
Definition total_score (ks ss acs : float) (wcs : Z) : option Z :=
  x <- score_sum ks ss acs wcs ;;
  py_round x.

Module details.

(** The [details] dictionary, one field per key. *)
Record t := mk {
  keyword_hits : Z;
  action_verbs : Z;
  word_count : Z;
  sections_present : Z;
  score_keywords_40 : Z;
  score_structure_20 : Z;
  score_action_verbs_20 : Z;
  score_word_count_20 : Z
}.

End details.

(** The suggestion strings, by category. *)
Inductive suggestion : Type :=
| SuggestKeywords
| SuggestSection (sec : string)
| SuggestImpact
| SuggestLength
| SuggestBullets.

Definition suggestion_text (s : suggestion) : string :=
  match s with
  | SuggestKeywords =>
      "Skills and keywords: Add more role-specific terms (e.g., Python, SQL, React). Recruiters and ATS look for these exact keywords."
  | SuggestSection sec =>
      ("Structure: Add a " ++ sec
         ++ " section with a clear heading so ATS can identify it.")%string
  | SuggestImpact =>
      "Impact language: Start bullets with strong action verbs (Led, Implemented, Built) and quantify results (e.g., 20% faster)."
  | SuggestLength =>
      "Length: Aim for ~350–600 words (roughly 1 page early-career). Keep bullets concise and remove fluff."
  | SuggestBullets =>
      "Readability: Use bullet points instead of paragraphs so both humans and ATS can parse achievements."
  end.

(** Lines 225-247: the suggestions in generation order, before the cut. *)
Definition all_suggestions (word_count : Z) (sections_present : dict bool)
    (keyword_hits action_hits : Z) : option (list suggestion) :=
  let s1 := if keyword_hits <? 6 then [SuggestKeywords] else [] in
  education <- dict_get sections_present "education" ;;
  experience <- dict_get sections_present "experience" ;;
  skills <- dict_get sections_present "skills" ;;
  projects <- dict_get sections_present "projects" ;;
  let s2 :=
    flat_map
      (fun sp : string * bool =>
         if negb (snd sp) then [SuggestSection (fst sp)] else [])
      [ ("Education", education); ("Experience", experience);
        ("Skills", skills); ("Projects", projects) ]%string in
  let s3 := if action_hits <? 5 then [SuggestImpact] else [] in
  let s4 := if negb (in_ideal_band word_count) then [SuggestLength] else [] in
  bullets <- dict_get sections_present "bullets" ;;
  let s5 := if negb bullets then [SuggestBullets] else [] in
  Some (s1 ++ s2 ++ s3 ++ s4 ++ s5).

(** The suggestions of [all_suggestions] when the five section flags are
    known, category by category in the order of the source. *)
Definition generated (word_count : Z) (e x s p b : bool)
    (keyword_hits action_hits : Z) : list suggestion :=
  (if keyword_hits <? 6 then [SuggestKeywords] else [])
  ++ (if e then [] else [SuggestSection "Education"])
  ++ (if x then [] else [SuggestSection "Experience"])
  ++ (if s then [] else [SuggestSection "Skills"])
  ++ (if p then [] else [SuggestSection "Projects"])
  ++ (if action_hits <? 5 then [SuggestImpact] else [])
  ++ (if in_ideal_band word_count then [] else [SuggestLength])
  ++ (if b then [] else [SuggestBullets]).

(** What [analyze_resume] returns: [(score, details, suggestions)]. *)
Record analysis := mk_analysis {
  score : Z;
  breakdown : details.t;
  suggestions : list suggestion
}.

Definition scorer (word_count : Z) (sections_present : dict bool)
    (keyword_hits action_hits : Z) : option analysis :=
  ks <- keywords_score keyword_hits ;;
  let sh := structure_hits sections_present in
  ss <- structure_score sh ;;
  acs <- action_score action_hits ;;
  let wcs := word_count_score word_count in
  total <- total_score ks ss acs wcs ;;
  d_ks <- py_round ks ;;
  d_ss <- py_round ss ;;
  d_acs <- py_round acs ;;
  let d :=
    details.mk keyword_hits action_hits word_count sh d_ks d_ss d_acs wcs in
  sugg <- all_suggestions word_count sections_present keyword_hits action_hits ;;
  Some (mk_analysis (Z.max 0 (Z.min 100 total)) d (firstn 3 sugg)).

(* ================================================================= *)
(** ** [analyze_resume] *)

Section Analyzer.

(** [str.lower]. *)
Variable lower : str -> str.

(** [text or ""] is [text] itself for a string. *)
Definition analyze_resume (text : str) : option analysis :=
  let cleaned := _clean_extracted_text text in
  let normalized := lower cleaned in
  let word_count := _count_words_robust cleaned in
  scorer word_count (sections_present normalized)
         (keyword_hits normalized) (action_hits normalized).

End Analyzer.

(** [str.lower] on the code points below U+0100 (Basic Latin and Latin-1
    Supplement); the other code points are passed through, which is what
    [str.lower] does for the bullet glyphs of the source. *)
Definition lower_latin1 (s : str) : str :=
  map (fun c =>
         if ((65 <=? c) && (c <=? 90) || (192 <=? c) && (c <=? 214)
             || (216 <=? c) && (c <=? 222))%N
         then (c + 32)%N else c) s.

(* ================================================================= *)
(** ** Sample documents *)

(** A document naming every keyword of the vocabulary. *)
Definition doc_all_keywords : str :=
  lit "Python Java JavaScript TypeScript SQL React Node AWS Azure GCP Docker Kubernetes GraphQL REST data machine learning NLP git pandas numpy Django Flask".

(** [n] copies of [s], one after the other. *)
Fixpoint repeat_str (n : nat) (s : str) : str :=
  match n with
  | O => []
  | S n' => s ++ repeat_str n' s
  end.

(** A 500-word document with all four sections, a bullet, twelve keywords
    and eight action verbs. *)
Definition doc_strong : str :=
  lit "Education Experience Skills Projects - python sql react node aws azure gcp docker kubernetes graphql nlp flask led implemented built created designed developed optimized improved"
  ++ repeat_str 476 (lit " x").

(** A page footer repeated six times among five repeated body lines. *)
Definition doc_footers : str :=
  repeat_str 5 (lit "Page 1" ++ [CR; LF] ++ lit "body" ++ [LF])
  ++ lit "  Page 1 ".

(* ================================================================= *)
(** ** The Cleaner's rule, as the specification words it *)

(** How many lines of the document have exactly the content [ln]. *)
Definition frequency (lines : list str) (ln : str) : Z :=
  count_if (str_eqb ln) lines.

(** A line survives unless it is empty, or occurs six times or more and is
    at most 80 characters long. *)
Definition survives (lines : list str) (ln : str) : bool :=
  truthy ln && negb ((6 <=? frequency lines ln) && (len ln <=? 80)).

(** Text whose only whitespace is single spaces: no whitespace character
    but the space, and no two in a row.  [prev_space] tells that the
    character before [s] was a space. *)
Fixpoint single_spaced (prev_space : bool) (s : str) : bool :=
  match s with
  | [] => true
  | c :: r =>
      if isspace c then negb prev_space && (c =? SP)%N && single_spaced true r
      else single_spaced false r
  end.

(** No whitespace at the start. *)
Definition no_leading_space (s : str) : bool :=
  match s with
  | [] => true
  | c :: _ => negb (isspace c)
  end.

(** One line as it shows in the cleaned text: the two substitutions of
    lines 144-145 applied to the line alone. *)
Definition collapse_line (ln : str) : str :=
  re_sub_runs isspace (re_sub_runs is_tab_nbsp ln).

(** A line that starts and ends with a character that is not whitespace. *)
Definition edge_clean (ln : str) : Prop :=
  (exists c r, ln = c :: r /\ isspace c = false)
  /\ (exists r x, ln = r ++ [x] /\ isspace x = false).

(* ================================================================= *)
(** ** Line-ending conventions *)

(** The text with every line feed written as carriage return, line feed. *)
Definition to_crlf (s : str) : str :=
  flat_map (fun c => if (c =? LF)%N then [CR; LF] else [c]) s.

(** The text with every line feed written as a lone carriage return. *)
Definition to_cr (s : str) : str :=
  map (fun c => if (c =? LF)%N then CR else c) s.

(* ================================================================= *)
(** ** The upload boundary (src/Hack/app/routes.py) *)

Definition DOT : codepoint := 46%N.

(** The text before and the text after the last [sep] of [s], if [sep]
    occurs. *)
Fixpoint rsplit_last (sep : codepoint) (s : str) : option (str * str) :=
  match s with
  | [] => None
  | c :: r =>
      match rsplit_last sep r with
      | Some (a, b) => Some (c :: a, b)
      | None => if (c =? sep)%N then Some ([], r) else None
      end
  end.

(** [s.rsplit(sep, 1)] for a one-character separator. *)
Definition rsplit1 (sep : codepoint) (s : str) : list str :=
  match rsplit_last sep s with
  | Some (a, b) => [a; b]
  | None => [s]
  end.

(** [xs[i]]: an index past the end raises IndexError. *)
Definition py_index {A : Type} (xs : list A) (i : nat) : option A :=
  nth_error xs i.

Definition ALLOWED_EXTENSIONS : list str :=
  map lit ["pdf"; "jpg"; "jpeg"; "png"; "docx"]%string.

(** [x in xs] for a collection of strings. *)
Definition mem_str (x : str) (xs : list str) : bool :=
  existsb (str_eqb x) xs.

Section Routes.

(** [str.lower]. *)
Variable lower : str -> str.

Definition allowed_file (filename : str) : option bool :=
  if contains filename [DOT] then
    ext <- py_index (rsplit1 DOT filename) 1 ;;
    Some (mem_str (lower ext) ALLOWED_EXTENSIONS)
  else Some false.

End Routes.

Module row.

(** The dictionary handed to [insert_analysis], one field per key; the
    suggestion columns hold a string or [None]. *)
Record t := mk {
  session_id : str;
  filename : str;
  word_count : Z;
  score : Z;
  score_keywords_40 : Z;
  score_structure_20 : Z;
  score_action_verbs_20 : Z;
  score_word_count_20 : Z;
  suggestion_1 : option suggestion;
  suggestion_2 : option suggestion;
  suggestion_3 : option suggestion
}.

End row.

(** [suggestions[i] if len(suggestions) > i else None] *)
Definition suggestion_column (suggestions : list suggestion) (i : nat)
  : option (option suggestion) :=
  if Z.of_nat i <? Z.of_nat (List.length suggestions) then
    v <- py_index suggestions i ;; Some (Some v)
  else Some None.

(** The row [upload] builds from the result of [analyze_resume] (lines
    66-78 of routes.py); every key read from [details] is one the analyser
    sets. *)
Definition analysis_row (sid filename : str) (r : analysis) : option row.t :=
  s1 <- suggestion_column (suggestions r) 0 ;;
  s2 <- suggestion_column (suggestions r) 1 ;;
  s3 <- suggestion_column (suggestions r) 2 ;;
  Some (row.mk sid filename
          (details.word_count (breakdown r)) (score r)
          (details.score_keywords_40 (breakdown r))
          (details.score_structure_20 (breakdown r))
          (details.score_action_verbs_20 (breakdown r))
          (details.score_word_count_20 (breakdown r))
          s1 s2 s3).

(** The suggestions a row stores, in column order. *)
Definition stored_suggestions (rw : row.t) : list suggestion :=
  flat_map (fun c => match c with Some v => [v] | None => [] end)
    [row.suggestion_1 rw; row.suggestion_2 rw; row.suggestion_3 rw].

(* ================================================================= *)
(** ** Text extraction: [extract_text_from_pdf]

    The PDF and OCR libraries are outside the repository.  What they answer
    for the document at hand is a [pdf_world]: one field per call site, an
    [option] where the call can raise ([None]).  Every [try] block of the
    source swallows all exceptions, so a [None] anywhere in a block ends
    that block. *)

(** [len(s.split())]: the number of maximal runs of non-whitespace.
    [in_word] tells that the previous character was not whitespace. *)
Fixpoint count_runs (in_word : bool) (s : str) : Z :=
  match s with
  | [] => 0
  | c :: r =>
      if isspace c then count_runs false r
      else (if in_word then 0 else 1) + count_runs true r
  end.

Definition split_count (s : str) : Z := count_runs false s.

(** An element of a PyMuPDF block tuple: a string or something else. *)
Inductive block_item : Type :=
| ItemStr (s : str)
| ItemOther.

(** What one PyMuPDF page answers to [get_text("text")], [get_text()] and
    [get_text("blocks")] (a falsy answer to the last one reads as [[]]). *)
Record fitz_page := mk_fitz_page {
  get_text_text : option str;
  get_text_default : option str;
  get_text_blocks : option (list (list block_item))
}.

Record pdf_world := mk_pdf_world {
  (** [import fitz; fitz.open(pdf_path)], first [try] block *)
  fitz_doc : option (list fitz_page);
  (** [pdfplumber.open(pdf_path)] and, page by page, [extract_text()]
      (a falsy answer reads as the empty string) *)
  plumber_pages : option (list (option str));
  (** [miner_extract(pdf_path)] (a falsy answer reads as the empty string) *)
  miner_text : option str;
  (** the imports of the last block and [get_tesseract_version()] succeed *)
  tesseract_available : bool;
  (** [fitz.open(pdf_path)] of the last block and, page by page, the
      rendering and [image_to_string] (a falsy answer reads as the empty
      string) *)
  ocr_pages : option (list (option str))
}.

(** [[b[4] for b in blocks if len(b) >= 5 and isinstance(b[4], str)]] *)
Definition block_texts (blocks : list (list block_item)) : list str :=
  flat_map
    (fun b =>
       if 5 <=? Z.of_nat (List.length b) then
         match nth_error b 4 with
         | Some (ItemStr s) => [s]
         | _ => []
         end
       else [])
    blocks.

(** Lines 19-24: the text of one page. *)
Definition fitz_page_text (pg : fitz_page) : option str :=
  t1 <- get_text_text pg ;;
  t <- (if truthy t1 then Some t1
        else t2 <- get_text_default pg ;; Some (if truthy t2 then t2 else [])) ;;
  if negb (truthy t) then
    blocks <- get_text_blocks pg ;;
    Some (join [LF] (block_texts blocks))
  else Some t.

(** A loop body run on every element, stopped by the first exception. *)
Fixpoint for_each {A B : Type} (f : A -> option B) (xs : list A)
  : option (list B) :=
  match xs with
  | [] => Some []
  | x :: r => y <- f x ;; ys <- for_each f r ;; Some (y :: ys)
  end.

(** Lines 13-31: [Some text] when the block returns, [None] when it falls
    through to the next one. *)
Definition stage_fitz (w : pdf_world) : option str :=
  doc <- fitz_doc w ;;
  ts <- for_each fitz_page_text doc ;;
  let text_joined := join [LF] (filter truthy ts) in
  if 50 <=? split_count text_joined then Some text_joined else None.

(** Lines 34-46. *)
Definition stage_plumber (w : pdf_world) : option str :=
  pages <- plumber_pages w ;;
  ts <- for_each (fun pg : option str => pg) pages ;;
  let text_joined2 := join [LF] (filter truthy ts) in
  if 20 <=? split_count text_joined2 then Some text_joined2 else None.

(** Lines 49-55. *)
Definition stage_miner (w : pdf_world) : option str :=
  t3 <- miner_text w ;;
  if 20 <=? split_count t3 then Some t3 else None.

(** The loop of lines 70-78: [ocr_texts] when it ends, [None] when a page
    raises. *)
Fixpoint ocr_loop (pages : list (option str)) (ocr_texts : list str)
  : option (list str) :=
  match pages with
  | [] => Some ocr_texts
  | pg :: rest =>
      t <- pg ;;
      let ocr_texts := ocr_texts ++ [t] in
      if 150 <=? split_count (join [SP] ocr_texts) then Some ocr_texts
      else ocr_loop rest ocr_texts
  end.

(** Lines 58-81: the pages read are [doc[0]] to [doc[min(3, len(doc)) - 1]]. *)
Definition stage_ocr (w : pdf_world) : str :=
  if negb (tesseract_available w) then []
  else
    match pages <- ocr_pages w ;; ocr_loop (firstn 3 pages) [] with
    | Some ocr_texts => join [LF] ocr_texts
    | None => []
    end.

Definition extract_text_from_pdf (w : pdf_world) : str :=
  match stage_fitz w with
  | Some text => text
  | None =>
      match stage_plumber w with
      | Some text => text
      | None =>
          match stage_miner w with
          | Some text => text
          | None => stage_ocr w
          end
      end
  end.

(* ================================================================= *)
(** ** The dispatcher: [extract_text_auto] *)

Definition SLASH : codepoint := 47%N.

(** [Path(path).name] on a POSIX system: the last component of the path
    that is neither empty nor a single dot. *)
Definition path_name (path : str) : str :=
  last (filter (fun c => truthy c && negb (str_eqb c [DOT]))
               (split_on SLASH path)) [].

(** [Path(path).suffix]: from the last dot of the name on, unless that dot
    opens or closes the name. *)
Definition path_suffix (path : str) : str :=
  match rsplit_last DOT (path_name path) with
  | Some (a, b) => if truthy a && truthy b then DOT :: b else []
  | None => []
  end.

Section Dispatcher.

(** [str.lower] and the three extractors, each from a path to its text. *)
Variable lower : str -> str.
Variables from_pdf from_image from_docx : str -> str.

Definition extract_text_auto (path : str) : str :=
  let suffix := lower (path_suffix path) in
  if str_eqb suffix (lit ".pdf") then from_pdf path
  else if mem_str suffix (map lit [".jpg"; ".jpeg"; ".png"]%string)
  then from_image path
  else if str_eqb suffix (lit ".docx") then from_docx path
  else [].

End Dispatcher.

(** A scanned document of four pages of 80 words each, without text layer
    and unknown to the other libraries. *)
Definition scanned_world : pdf_world :=
  {| fitz_doc := Some [];
     plumber_pages := None;
     miner_text := Some [];
     tesseract_available := true;
     ocr_pages :=
       Some [ Some (repeat_str 80 (lit "w ")); Some (repeat_str 80 (lit "w "));
              None; Some (lit "never read") ] |}.

(* ================================================================= *)
(** ** Strings: equality, prefixes and substrings *)

Lemma str_eqb_eq (a b : str) : str_eqb a b = true <-> a = b.
Proof.
  revert b; induction a as [|x a IH]; intros [|y b]; simpl;
    try (split; [discriminate | congruence]); try tauto.
  rewrite andb_true_iff, N.eqb_eq, IH.
  split; [intros [-> ->]; reflexivity | intros [= -> ->]; auto].
Qed.

Lemma str_eqb_refl (a : str) : str_eqb a a = true.
Proof. apply str_eqb_eq; reflexivity. Qed.

Lemma starts_with_iff (p s : str) :
  starts_with p s = true <-> exists b, s = p ++ b.
Proof.
  revert s; induction p as [|a p IH]; intros s; simpl.
  - split; [intros _; exists s; reflexivity | reflexivity].
  - destruct s as [|c s].
    + split; [discriminate | intros [b Hb]; discriminate].
    + rewrite andb_true_iff, N.eqb_eq, IH. split.
      * intros [-> [b ->]]. exists b. reflexivity.
      * intros [b [= -> ->]]. split; [reflexivity | exists b; reflexivity].
Qed.

Lemma contains_iff (s p : str) :
  contains s p = true <-> exists a b, s = a ++ p ++ b.
Proof.
  induction s as [|c s IH].
  - simpl. rewrite orb_false_r, starts_with_iff. split.
    + intros [b Hb]. exists [], b. exact Hb.
    + intros [a [b Hab]]. destruct a as [|x a]; [|discriminate].
      exists b. exact Hab.
  - cbn [contains]. rewrite orb_true_iff, starts_with_iff, IH. split.
    + intros [[b Hb] | [a [b Hab]]].
      * exists [], b. exact Hb.
      * exists (c :: a), b. simpl. now rewrite Hab.
    + intros [[|x a] [b Hab]].
      * left. exists b. exact Hab.
      * right. injection Hab as -> ->. exists a, b. reflexivity.
Qed.

Lemma count_if_bounds {A : Type} (f : A -> bool) (xs : list A) :
  0 <= count_if f xs <= Z.of_nat (List.length xs).
Proof.
  induction xs as [|x xs IH]; cbn [count_if List.length]; [lia|].
  destruct (f x); lia.
Qed.

Lemma count_if_pos {A : Type} (f : A -> bool) (xs : list A) (x : A) :
  In x xs -> f x = true -> 1 <= count_if f xs.
Proof.
  induction xs as [|y xs IH]; cbn [count_if In]; [tauto|].
  intros [-> | Hin] Hf.
  - rewrite Hf. pose proof (count_if_bounds f xs). lia.
  - specialize (IH Hin Hf). destruct (f y); lia.
Qed.

(* ================================================================= *)
(** ** The embedding on small inputs *)

Example tokens_hyphenated :
  _count_words_robust (lit "state-of-the-art developer") = 2.
Proof. reflexivity. Qed.

Example tokens_joiners :
  _count_words_robust (lit "don't a--b -x- 42") = 5.
Proof. reflexivity. Qed.

Example clean_collapses_whitespace :
  _clean_extracted_text ([TAB; NBSP] ++ lit "a  b" ++ [CR; LF; CR] ++ lit " c ")
  = lit "a b c".
Proof. reflexivity. Qed.

Example clean_drops_footers :
  _clean_extracted_text doc_footers = lit "body body body body body".
Proof. vm_compute. reflexivity. Qed.

Example three_keywords_score_12 :
  option_map score (analyze_resume lower_latin1 (lit "Python, SQL and React"))
  = Some 12.
Proof. vm_compute. reflexivity. Qed.

Example half_even_rounding :
  map py_round [0.5; 1.5; 2.5; (-1.5)]%float = [Some 0; Some 2; Some 2; Some (-2)].
Proof. vm_compute. reflexivity. Qed.

(* ================================================================= *)
(** ** The Detector: vocabulary bounds and the verb matcher *)

(** C4 (as stated): on the document that names every keyword, the claimed
    bound of 20 keyword hits fails: all 22 entries of [keywords] are hit. *)
Lemma C4_keyword_hits_exceed_20 :
  let normalized := lower_latin1 (_clean_extracted_text doc_all_keywords) in
  ~ (keyword_hits normalized <= 20 /\ action_hits normalized <= 20).
Proof.
  intros normalized [H _]. vm_compute in H. apply H. reflexivity.
Qed.

Lemma hits_bounds (normalized : str) :
  0 <= keyword_hits normalized <= 22 /\ 0 <= action_hits normalized <= 20.
Proof.
  split.
  - exact (count_if_bounds (fun k => contains normalized k) keywords).
  - exact (count_if_bounds (verb_matches normalized) action_verbs).
Qed.

(** C4 (amended): for every input text and whatever the lowercasing does,
    [keyword_hits] lies between 0 and 22, the number of entries of the
    keyword list, and [action_hits] between 0 and 20, the number of verbs. *)
Theorem C4_hits_bounded_by_vocabulary :
  forall (lower : str -> str) (text : str),
    let normalized := lower (_clean_extracted_text text) in
    0 <= keyword_hits normalized <= 22 /\ 0 <= action_hits normalized <= 20.
Proof.
  intros lower text normalized. exact (hits_bounds normalized).
Qed.

Lemma app_tail_space (x y b : str) :
  x ++ [SP] = y ++ SP :: b ->
  (b = [] /\ x = y) \/ (exists b', b = b' ++ [SP] /\ x = y ++ SP :: b').
Proof.
  destruct b as [|z b' _] using rev_ind; intros H.
  - left. apply app_inj_tail in H. tauto.
  - right. exists b'.
    change (y ++ SP :: b' ++ [z]) with (y ++ (SP :: b') ++ [z]) in H.
    rewrite app_assoc in H. apply app_inj_tail in H.
    destruct H as [-> <-]. split; reflexivity.
Qed.

(** The verb matcher in terms of the text itself: [v] is counted exactly
    when it occurs with, on each side, a space or the end of the text. *)
Lemma verb_matches_iff (normalized v : str) :
  verb_matches normalized v = true <->
  exists pre post,
    normalized = pre ++ v ++ post
    /\ (pre = [] \/ exists pre', pre = pre' ++ [SP])
    /\ (post = [] \/ exists post', post = SP :: post').
Proof.
  unfold verb_matches, padded. rewrite contains_iff. split.
  - intros [a [b H]]. destruct a as [|x a].
    + simpl in H. injection H as H.
      rewrite <- app_assoc in H. simpl in H.
      apply app_tail_space in H. destruct H as [[-> ->] | [b' [-> ->]]].
      * exists [], []. rewrite app_nil_r. intuition eauto.
      * exists [], (SP :: b'). simpl. intuition eauto.
    + simpl in H. injection H as <- H.
      replace (a ++ SP :: (v ++ [SP]) ++ b) with ((a ++ SP :: v) ++ SP :: b) in H
        by (simpl; rewrite <- !app_assoc; reflexivity).
      apply app_tail_space in H. destruct H as [[-> ->] | [b' [-> ->]]].
      * exists (a ++ [SP]), []. rewrite app_nil_r, <- app_assoc. intuition eauto.
      * exists (a ++ [SP]), (SP :: b'). rewrite <- !app_assoc. simpl. intuition eauto.
  - intros [pre [post [-> [Hpre Hpost]]]].
    destruct Hpre as [-> | [pre' ->]]; destruct Hpost as [-> | [post' ->]].
    + exists [], []. simpl. rewrite !app_nil_r. reflexivity.
    + exists [], (post' ++ [SP]). simpl. rewrite <- !app_assoc. reflexivity.
    + exists (SP :: pre'), []. simpl. rewrite !app_nil_r, <- !app_assoc. reflexivity.
    + exists (SP :: pre'), (post' ++ [SP]). simpl. rewrite <- !app_assoc. reflexivity.
Qed.

(** C5 (as stated): a text that starts with "led " is said to lose that
    verb; the matcher counts it. *)
Lemma C5_verb_at_start_is_counted :
  ~ (action_hits (lit "led the team") = 0).
Proof. vm_compute. discriminate. Qed.

(** C5 (amended): a verb is counted exactly when it occurs with a space or
    a text boundary on each side, because the matcher looks for [" verb "]
    in the text padded with one space at both ends.  So a verb that opens
    or closes the text is counted, and a verb followed by punctuation, as
    in "led.", is not. *)
Theorem C5_verb_counted_iff_space_or_boundary :
  (forall normalized v : str,
      verb_matches normalized v = true <->
      exists pre post,
        normalized = pre ++ v ++ post
        /\ (pre = [] \/ exists pre', pre = pre' ++ [SP])
        /\ (post = [] \/ exists post', post = SP :: post'))
  /\ (forall v rest : str,
         In v action_verbs ->
         1 <= action_hits (v ++ SP :: rest) /\ 1 <= action_hits (rest ++ SP :: v))
  /\ action_hits (lit "led.") = 0.
Proof.
  split; [exact verb_matches_iff|]. split; [|reflexivity].
  intros v rest Hv. split.
  - apply (count_if_pos _ _ v Hv). apply verb_matches_iff.
    exists [], (SP :: rest). simpl. intuition eauto.
  - apply (count_if_pos _ _ v Hv). apply verb_matches_iff.
    exists (rest ++ [SP]), []. rewrite app_nil_r, <- app_assoc. simpl. intuition eauto.
Qed.

Lemma C5_witness :
  In (lit "led") action_verbs
  /\ 1 <= action_hits (lit "led" ++ SP :: lit "the team")
  /\ 1 <= action_hits (lit "the team" ++ SP :: lit "led").
Proof.
  split; [left; reflexivity|].
  apply (proj1 (proj2 C5_verb_counted_iff_space_or_boundary)
           (lit "led") _).
  left; reflexivity.
Defined.

(* ================================================================= *)
(** ** The Scorer: the float arithmetic is exact on the reachable counts *)

Lemma in_zseq (n : nat) (k : Z) :
  0 <= k < Z.of_nat n -> In k (map Z.of_nat (seq 0 n)).
Proof.
  intros H. apply in_map_iff. exists (Z.to_nat k). split; [lia|].
  apply in_seq. lia.
Qed.

Lemma keywords_score_exact (kh : Z) :
  0 <= kh <= 22 ->
  keywords_score kh = Some (nearest_float (4 * Z.min kh 10)).
Proof.
  intros H. rewrite <- (Z2Nat.id kh) by lia.
  assert (Hn : (Z.to_nat kh <= 22)%nat) by lia.
  generalize dependent (Z.to_nat kh). clear. intros n Hn.
  do 23 (destruct n as [|n]; [vm_compute; reflexivity|]). lia.
Qed.

Lemma structure_score_exact (sh : Z) :
  0 <= sh <= 4 ->
  structure_score sh = Some (nearest_float (5 * sh)).
Proof.
  intros H. rewrite <- (Z2Nat.id sh) by lia.
  assert (Hn : (Z.to_nat sh <= 4)%nat) by lia.
  generalize dependent (Z.to_nat sh). clear. intros n Hn.
  do 5 (destruct n as [|n]; [vm_compute; reflexivity|]). lia.
Qed.

Lemma action_score_exact (ah : Z) :
  0 <= ah ->
  action_score ah = Some (nearest_float (2 * Z.min ah 10)).
Proof.
  intros H. unfold action_score.
  assert (Hm : 0 <= Z.min ah 10 <= 10) by lia.
  generalize dependent (Z.min ah 10). clear. intros m H.
  rewrite <- (Z2Nat.id m) by lia.
  assert (Hn : (Z.to_nat m <= 10)%nat) by lia.
  generalize dependent (Z.to_nat m). clear. intros n Hn.
  do 11 (destruct n as [|n]; [vm_compute; reflexivity|]). lia.
Qed.

Lemma py_round_checked :
  forallb
    (fun n => match py_round (nearest_float n) with
              | Some m => m =? n
              | None => false
              end)
    (map Z.of_nat (seq 0 101)) = true.
Proof. vm_compute. reflexivity. Qed.

Lemma py_round_exact (n : Z) :
  0 <= n <= 100 -> py_round (nearest_float n) = Some n.
Proof.
  intros H. pose proof py_round_checked as C.
  rewrite forallb_forall in C. specialize (C n (in_zseq 101 n ltac:(lia))).
  destruct (py_round (nearest_float n)); [|discriminate].
  apply Z.eqb_eq in C. congruence.
Qed.

Lemma totals_checked :
  forallb (fun k =>
  forallb (fun s =>
  forallb (fun a =>
  forallb (fun w =>
    match total_score (nearest_float (4 * k)) (nearest_float (5 * s))
                      (nearest_float (2 * a)) w with
    | Some t => t =? 4 * k + 5 * s + 2 * a + w
    | None => false
    end) [0; 10; 20])
    (map Z.of_nat (seq 0 11)))
    (map Z.of_nat (seq 0 5)))
    (map Z.of_nat (seq 0 11)) = true.
Proof. vm_compute. reflexivity. Qed.

Lemma total_score_exact (k s a w : Z) :
  0 <= k <= 10 -> 0 <= s <= 4 -> 0 <= a <= 10 -> In w [0; 10; 20] ->
  total_score (nearest_float (4 * k)) (nearest_float (5 * s))
              (nearest_float (2 * a)) w
  = Some (4 * k + 5 * s + 2 * a + w).
Proof.
  intros Hk Hs Ha Hw. pose proof totals_checked as C.
  rewrite forallb_forall in C. specialize (C k (in_zseq 11 k ltac:(lia))).
  rewrite forallb_forall in C. specialize (C s (in_zseq 5 s ltac:(lia))).
  rewrite forallb_forall in C. specialize (C a (in_zseq 11 a ltac:(lia))).
  rewrite forallb_forall in C. specialize (C w Hw).
  destruct (total_score _ _ _ w); [|discriminate].
  apply Z.eqb_eq in C. congruence.
Qed.

Lemma sums_checked :
  forallb (fun k =>
  forallb (fun s =>
  forallb (fun a =>
  forallb (fun w =>
    match score_sum (nearest_float (4 * k)) (nearest_float (5 * s))
                    (nearest_float (2 * a)) w with
    | Some x =>
        match exact_int x with
        | Some t => t =? 4 * k + 5 * s + 2 * a + w
        | None => false
        end
    | None => false
    end) [0; 10; 20])
    (map Z.of_nat (seq 0 11)))
    (map Z.of_nat (seq 0 5)))
    (map Z.of_nat (seq 0 11)) = true.
Proof. vm_compute. reflexivity. Qed.

Lemma score_sum_exact (k s a w : Z) :
  0 <= k <= 10 -> 0 <= s <= 4 -> 0 <= a <= 10 -> In w [0; 10; 20] ->
  exists x : float,
    score_sum (nearest_float (4 * k)) (nearest_float (5 * s))
              (nearest_float (2 * a)) w = Some x
    /\ exact_int x = Some (4 * k + 5 * s + 2 * a + w).
Proof.
  intros Hk Hs Ha Hw. pose proof sums_checked as C.
  rewrite forallb_forall in C. specialize (C k (in_zseq 11 k ltac:(lia))).
  rewrite forallb_forall in C. specialize (C s (in_zseq 5 s ltac:(lia))).
  rewrite forallb_forall in C. specialize (C a (in_zseq 11 a ltac:(lia))).
  rewrite forallb_forall in C. specialize (C w Hw).
  destruct (score_sum _ _ _ w) as [x|]; [|discriminate].
  exists x. split; [reflexivity|].
  destruct (exact_int x); [|discriminate].
  apply Z.eqb_eq in C. congruence.
Qed.

Lemma word_count_score_values (wc : Z) :
  In (word_count_score wc) [0; 10; 20].
Proof.
  unfold word_count_score.
  destruct (in_ideal_band wc); [simpl; tauto|].
  destruct (_ && _); simpl; tauto.
Qed.

Lemma structure_hits_sections (e x s p b : bool) :
  structure_hits
    [ ("education", e); ("experience", x); ("skills", s); ("projects", p);
      ("bullets", b) ]%string
  = Z.b2z e + Z.b2z x + Z.b2z s + Z.b2z p.
Proof. destruct e, x, s, p, b; reflexivity. Qed.

Lemma all_suggestions_sections (wc : Z) (e x s p b : bool) (kh ah : Z) :
  all_suggestions wc
    [ ("education", e); ("experience", x); ("skills", s); ("projects", p);
      ("bullets", b) ]%string kh ah
  = Some (generated wc e x s p b kh ah).
Proof.
  unfold all_suggestions, generated. cbn [dict_get String.eqb Ascii.eqb Bool.eqb bind].
  cbn [flat_map fst snd negb].
  destruct (in_ideal_band wc), e, x, s, p, b; reflexivity.
Qed.

(** The scorer on the signals the detector can produce, in closed form. *)
Lemma scorer_spec (wc : Z) (e x s p b : bool) (kh ah : Z) :
  0 <= kh <= 22 -> 0 <= ah ->
  let sh := Z.b2z e + Z.b2z x + Z.b2z s + Z.b2z p in
  let total := 4 * Z.min kh 10 + 5 * sh + 2 * Z.min ah 10 + word_count_score wc in
  scorer wc
    [ ("education", e); ("experience", x); ("skills", s); ("projects", p);
      ("bullets", b) ]%string kh ah
  = Some
      {| score := Z.max 0 (Z.min 100 total);
         breakdown :=
           details.mk kh ah wc sh (4 * Z.min kh 10) (5 * sh) (2 * Z.min ah 10)
                      (word_count_score wc);
         suggestions := firstn 3 (generated wc e x s p b kh ah) |}.
Proof.
  intros Hkh Hah sh total. unfold scorer.
  rewrite structure_hits_sections. fold sh.
  assert (Hsh : 0 <= sh <= 4) by (subst sh; destruct e, x, s, p; simpl; lia).
  rewrite (keywords_score_exact kh Hkh), (structure_score_exact sh Hsh),
    (action_score_exact ah Hah).
  cbn [bind].
  rewrite (total_score_exact (Z.min kh 10) sh (Z.min ah 10) (word_count_score wc))
    by (try lia; apply word_count_score_values).
  pose proof (word_count_score_values wc) as Hw.
  rewrite !py_round_exact by lia.
  rewrite all_suggestions_sections. reflexivity.
Qed.

Lemma sections_present_shape (normalized : str) :
  exists e x s p b : bool,
    sections_present normalized
    = [ ("education", e); ("experience", x); ("skills", s); ("projects", p);
        ("bullets", b) ]%string.
Proof. unfold sections_present. do 5 eexists. reflexivity. Qed.

Section AnalyzerFacts.

Variable lower : str -> str.

(** [analyze_resume] never raises, and its result in closed form. *)
Lemma analyze_resume_spec (text : str) :
  let cleaned := _clean_extracted_text text in
  let normalized := lower cleaned in
  let wc := _count_words_robust cleaned in
  let kh := keyword_hits normalized in
  let ah := action_hits normalized in
  let sh := structure_hits (sections_present normalized) in
  let total := 4 * Z.min kh 10 + 5 * sh + 2 * Z.min ah 10 + word_count_score wc in
  0 <= kh <= 22 /\ 0 <= ah <= 20 /\ 0 <= sh <= 4 /\
  exists sugg,
    all_suggestions wc (sections_present normalized) kh ah = Some sugg /\
    analyze_resume lower text
    = Some
        {| score := Z.max 0 (Z.min 100 total);
           breakdown :=
             details.mk kh ah wc sh (4 * Z.min kh 10) (5 * sh)
                        (2 * Z.min ah 10) (word_count_score wc);
           suggestions := firstn 3 sugg |}.
Proof.
  intros cleaned normalized wc kh ah sh total.
  destruct (hits_bounds normalized) as [Hkh Hah].
  fold kh ah in Hkh, Hah.
  subst total sh. unfold analyze_resume. fold cleaned normalized wc kh ah.
  clearbody kh ah wc.
  destruct (sections_present_shape normalized) as (e & x & s & p & b & ->).
  rewrite structure_hits_sections, all_suggestions_sections.
  rewrite (scorer_spec wc e x s p b kh ah Hkh (proj1 Hah)).
  split; [exact Hkh|]. split; [exact Hah|].
  split; [destruct e, x, s, p; cbn [Z.b2z]; lia|].
  eexists. split; reflexivity.
Qed.

End AnalyzerFacts.

(* ================================================================= *)
(** ** [analyze_resume]: range, clamp, integrality, breakdown *)

(** C1: for every input text, the empty one included, [analyze_resume]
    returns (it does not raise), its score lies in [0,100] and it gives at
    most three suggestions. *)
Theorem C1_score_in_range_at_most_three_suggestions :
  forall (lower : str -> str) (text : str),
  exists r : analysis,
    analyze_resume lower text = Some r
    /\ 0 <= score r <= 100
    /\ (List.length (suggestions r) <= 3)%nat.
Proof.
  intros lower text.
  destruct (analyze_resume_spec lower text) as (_ & _ & _ & sugg & _ & ->).
  eexists. split; [reflexivity|]. cbn [score suggestions]. split; [lia|].
  rewrite length_firstn. apply Nat.le_min_l.
Qed.

(** C2: for every input text, the total before the clamp, the rounded sum
    of the four sub-scores, already lies in [0,100]; the clamp leaves it
    unchanged and it is the score returned. *)
Theorem C2_clamp_never_changes_total :
  forall (lower : str -> str) (text : str),
    let cleaned := _clean_extracted_text text in
    let normalized := lower cleaned in
    exists (ks ss acs : float) (total : Z),
      keywords_score (keyword_hits normalized) = Some ks
      /\ structure_score (structure_hits (sections_present normalized)) = Some ss
      /\ action_score (action_hits normalized) = Some acs
      /\ total_score ks ss acs (word_count_score (_count_words_robust cleaned))
         = Some total
      /\ 0 <= total <= 100
      /\ Z.max 0 (Z.min 100 total) = total
      /\ exists r : analysis,
           analyze_resume lower text = Some r /\ score r = total.
Proof.
  intros lower text cleaned normalized.
  destruct (analyze_resume_spec lower text)
    as (Hkh & Hah & Hsh & sugg & _ & Hr).
  fold cleaned normalized in Hkh, Hah, Hsh, Hr.
  pose proof (word_count_score_values (_count_words_robust cleaned)) as Hw.
  set (kh := keyword_hits normalized) in *.
  set (ah := action_hits normalized) in *.
  set (sh := structure_hits (sections_present normalized)) in *.
  set (w := word_count_score (_count_words_robust cleaned)) in *.
  clearbody kh ah sh w.
  assert (Hrange : 0 <= 4 * Z.min kh 10 + 5 * sh + 2 * Z.min ah 10 + w <= 100)
    by (simpl in Hw; lia).
  exists (nearest_float (4 * Z.min kh 10)), (nearest_float (5 * sh)),
    (nearest_float (2 * Z.min ah 10)),
    (4 * Z.min kh 10 + 5 * sh + 2 * Z.min ah 10 + w).
  split; [apply keywords_score_exact; exact Hkh|].
  split; [apply structure_score_exact; exact Hsh|].
  split; [apply action_score_exact; lia|].
  split; [apply total_score_exact; (lia || exact Hw)|].
  split; [exact Hrange|]. split; [lia|].
  eexists. split; [exact Hr|]. cbn [score]. lia.
Qed.

(** C9: for every input text each sub-score is an exact integer: the
    keyword score is the float of 4 times min(hits, 10), the structure score
    of 5 times the number of sections, the action score of 2 times
    min(hits, 10), the word-count score one of 0, 10, 20.  Rounding them
    changes nothing, their float sum is exactly the integer sum, the
    breakdown reports these very integers, and the returned total is their
    sum. *)
Theorem C9_sub_scores_are_integers_and_sum_to_total :
  forall (lower : str -> str) (text : str),
    let cleaned := _clean_extracted_text text in
    let normalized := lower cleaned in
    let kh := keyword_hits normalized in
    let sh := structure_hits (sections_present normalized) in
    let ah := action_hits normalized in
    let wcs := word_count_score (_count_words_robust cleaned) in
    keywords_score kh = Some (nearest_float (4 * Z.min kh 10))
    /\ py_round (nearest_float (4 * Z.min kh 10)) = Some (4 * Z.min kh 10)
    /\ 0 <= 4 * Z.min kh 10 <= 40
    /\ structure_score sh = Some (nearest_float (5 * sh))
    /\ py_round (nearest_float (5 * sh)) = Some (5 * sh)
    /\ 0 <= 5 * sh <= 20
    /\ action_score ah = Some (nearest_float (2 * Z.min ah 10))
    /\ py_round (nearest_float (2 * Z.min ah 10)) = Some (2 * Z.min ah 10)
    /\ 0 <= 2 * Z.min ah 10 <= 20
    /\ In wcs [0; 10; 20]
    /\ (exists x : float,
          score_sum (nearest_float (4 * Z.min kh 10)) (nearest_float (5 * sh))
                    (nearest_float (2 * Z.min ah 10)) wcs = Some x
          /\ exact_int x = Some (4 * Z.min kh 10 + 5 * sh + 2 * Z.min ah 10 + wcs))
    /\ exists r : analysis,
         analyze_resume lower text = Some r
         /\ details.score_keywords_40 (breakdown r) = 4 * Z.min kh 10
         /\ details.score_structure_20 (breakdown r) = 5 * sh
         /\ details.score_action_verbs_20 (breakdown r) = 2 * Z.min ah 10
         /\ details.score_word_count_20 (breakdown r) = wcs
         /\ score r
            = details.score_keywords_40 (breakdown r)
              + details.score_structure_20 (breakdown r)
              + details.score_action_verbs_20 (breakdown r)
              + details.score_word_count_20 (breakdown r).
Proof.
  intros lower text cleaned normalized kh sh ah wcs.
  destruct (analyze_resume_spec lower text)
    as (Hkh & Hah & Hsh & sugg & _ & Hr).
  fold cleaned normalized kh ah sh wcs in Hkh, Hah, Hsh, Hr.
  pose proof (word_count_score_values (_count_words_robust cleaned)) as Hw.
  fold wcs in Hw. clearbody kh ah sh wcs.
  split; [apply keywords_score_exact; exact Hkh|].
  split; [apply py_round_exact; lia|]. split; [lia|].
  split; [apply structure_score_exact; exact Hsh|].
  split; [apply py_round_exact; lia|]. split; [lia|].
  split; [apply action_score_exact; lia|].
  split; [apply py_round_exact; lia|]. split; [lia|].
  split; [exact Hw|].
  split; [apply score_sum_exact; (lia || exact Hw)|].
  eexists. split; [exact Hr|].
  cbn [breakdown score details.score_keywords_40 details.score_structure_20
         details.score_action_verbs_20 details.score_word_count_20].
  repeat split. simpl in Hw. lia.
Qed.

(** C10: the [sections_present] entry of the returned breakdown is an
    integer, the number of the four flags education, experience, skills,
    projects that are true, between 0 and 4; the bullets flag does not count,
    and the breakdown holds no boolean mapping. *)
Theorem C10_breakdown_sections_present_is_a_count :
  forall (lower : str -> str) (text : str),
    let normalized := lower (_clean_extracted_text text) in
    exists (r : analysis) (e x s p b : bool),
      analyze_resume lower text = Some r
      /\ dict_get (sections_present normalized) "education" = Some e
      /\ dict_get (sections_present normalized) "experience" = Some x
      /\ dict_get (sections_present normalized) "skills" = Some s
      /\ dict_get (sections_present normalized) "projects" = Some p
      /\ dict_get (sections_present normalized) "bullets" = Some b
      /\ details.sections_present (breakdown r)
         = Z.b2z e + Z.b2z x + Z.b2z s + Z.b2z p
      /\ 0 <= details.sections_present (breakdown r) <= 4.
Proof.
  intros lower text normalized.
  destruct (analyze_resume_spec lower text)
    as (_ & _ & Hsh & sugg & _ & Hr).
  fold normalized in Hsh, Hr.
  destruct (sections_present_shape normalized) as (e & x & s & p & b & Hsp).
  eexists. exists e, x, s, p, b.
  split; [exact Hr|].
  cbn [breakdown details.sections_present].
  rewrite Hsp in *. rewrite structure_hits_sections in *.
  repeat split; try reflexivity; lia.
Qed.

(** C8: when every flag of [sections_present] is true, bullets included,
    eight action verbs and twelve keywords are hit and the text has 500
    words, the sub-scores are 40 (capped), 20, 16 and 20, the total is 96 and
    no suggestion is made. *)
Theorem C8_strong_resume_scores_96 :
  forall (lower : str -> str) (text : str),
    let cleaned := _clean_extracted_text text in
    let normalized := lower cleaned in
    Forall (fun kv => snd kv = true) (sections_present normalized) ->
    action_hits normalized = 8 ->
    keyword_hits normalized = 12 ->
    _count_words_robust cleaned = 500 ->
    keywords_score (keyword_hits normalized) = Some 40%float
    /\ structure_score (structure_hits (sections_present normalized))
       = Some 20%float
    /\ action_score (action_hits normalized) = Some 16%float
    /\ word_count_score (_count_words_robust cleaned) = 20
    /\ analyze_resume lower text
       = Some {| score := 96;
                 breakdown := details.mk 12 8 500 4 40 20 16 20;
                 suggestions := [] |}.
Proof.
  intros lower text cleaned normalized Hsec Hah Hkh Hwc.
  unfold analyze_resume. fold cleaned normalized.
  rewrite Hah, Hkh, Hwc.
  destruct (sections_present_shape normalized) as (e & x & s & p & b & Hsp).
  rewrite Hsp in *.
  repeat match goal with
         | H : Forall _ (_ :: _) |- _ =>
             apply Forall_cons_iff in H; cbn [snd] in H; destruct H as [? H]
         end.
  subst e x s p b.
  repeat split; vm_compute; reflexivity.
Qed.

Lemma C8_witness :
  Forall (fun kv => snd kv = true)
         (sections_present (lower_latin1 (_clean_extracted_text doc_strong)))
  /\ analyze_resume lower_latin1 doc_strong
     = Some {| score := 96;
               breakdown := details.mk 12 8 500 4 40 20 16 20;
               suggestions := [] |}.
Proof.
  assert (Hsec : Forall (fun kv => snd kv = true)
                   (sections_present
                      (lower_latin1 (_clean_extracted_text doc_strong))))
    by (vm_compute; repeat constructor).
  split; [exact Hsec|].
  apply (C8_strong_resume_scores_96 lower_latin1 doc_strong Hsec);
    vm_compute; reflexivity.
Defined.

(* ================================================================= *)
(** ** The empty document *)

(** C3 (as stated): the suggestions returned for the empty text are said
    to include the length suggestion; they do not. *)
Lemma C3_empty_text_has_no_length_suggestion :
  ~ (exists r : analysis,
        analyze_resume lower_latin1 [] = Some r
        /\ In SuggestLength (suggestions r)).
Proof.
  intros [r [Hr Hin]]. vm_compute in Hr. injection Hr as <-.
  cbn [suggestions In] in Hin.
  repeat destruct Hin as [Hin | Hin]; try discriminate. exact Hin.
Qed.

(** C3 (amended): on the empty text the analysis returns without error a
    score of 0 and exactly three suggestions: keywords, then the Education
    and the Experience sections.  The length suggestion is generated, in
    seventh place, and falls to the cut at three. *)
Theorem C3_empty_text_low_score_first_three_suggestions :
  forall lower : str -> str,
    lower [] = [] ->
    analyze_resume lower []
    = Some {| score := 0;
              breakdown := details.mk 0 0 0 0 0 0 0 0;
              suggestions :=
                [ SuggestKeywords; SuggestSection "Education";
                  SuggestSection "Experience" ] |}
    /\ all_suggestions 0 (sections_present []) 0 0
       = Some [ SuggestKeywords; SuggestSection "Education";
                SuggestSection "Experience"; SuggestSection "Skills";
                SuggestSection "Projects"; SuggestImpact; SuggestLength;
                SuggestBullets ].
Proof.
  intros lower Hlower. unfold analyze_resume.
  change (_clean_extracted_text []) with (@nil codepoint).
  rewrite Hlower. split; vm_compute; reflexivity.
Qed.

Lemma C3_witness :
  lower_latin1 [] = []
  /\ analyze_resume lower_latin1 []
     = Some {| score := 0;
               breakdown := details.mk 0 0 0 0 0 0 0 0;
               suggestions :=
                 [ SuggestKeywords; SuggestSection "Education";
                   SuggestSection "Experience" ] |}.
Proof.
  split; [reflexivity|].
  exact (proj1 (C3_empty_text_low_score_first_three_suggestions
                  lower_latin1 eq_refl)).
Defined.

(* ================================================================= *)
(** ** The Cleaner: which lines are dropped *)

Lemma str_eqb_sym (a b : str) : str_eqb a b = str_eqb b a.
Proof.
  destruct (str_eqb a b) eqn:E1, (str_eqb b a) eqn:E2; try reflexivity.
  - apply str_eqb_eq in E1. subst. now rewrite str_eqb_refl in E2.
  - apply str_eqb_eq in E2. subst. now rewrite str_eqb_refl in E1.
Qed.

Lemma counter_get_incr (c : counter) (x y : str) :
  counter_get (counter_incr c x) y
  = counter_get c y + (if str_eqb y x then 1 else 0).
Proof.
  induction c as [|[k n] r IH]; cbn [counter_incr counter_get].
  - rewrite (str_eqb_sym x y). destruct (str_eqb y x); lia.
  - destruct (str_eqb k x) eqn:Ekx; cbn [counter_get].
    + apply str_eqb_eq in Ekx. subst k. rewrite (str_eqb_sym x y).
      destruct (str_eqb y x); lia.
    + destruct (str_eqb k y) eqn:Eky; [|exact IH].
      apply str_eqb_eq in Eky. subst k.
      rewrite Ekx. lia.
Qed.

(** A [Counter] built from a list holds, for each string, the number of its
    occurrences in the list. *)
Lemma counter_get_Counter (xs : list str) (y : str) :
  counter_get (Counter xs) y = frequency xs y.
Proof.
  unfold Counter, frequency.
  assert (G : forall c, counter_get (fold_left counter_incr xs c) y
                        = counter_get c y + count_if (str_eqb y) xs).
  { induction xs as [|x xs IH]; intros c; cbn [fold_left count_if]; [lia|].
    rewrite IH, counter_get_incr. destruct (str_eqb y x); lia. }
  rewrite G. reflexivity.
Qed.

Lemma frequency_filter_truthy (lines : list str) (ln : str) :
  truthy ln = true ->
  frequency (filter truthy lines) ln = frequency lines ln.
Proof.
  intros Hln. unfold frequency.
  induction lines as [|l lines IH]; [reflexivity|].
  cbn [filter count_if]. destruct (truthy l) eqn:El; cbn [count_if].
  - rewrite IH. reflexivity.
  - destruct (str_eqb ln l) eqn:E; [|exact IH].
    apply str_eqb_eq in E. congruence.
Qed.

Lemma keep_line_survives (lines : list str) (ln : str) :
  keep_line (Counter (filter truthy lines)) ln = survives lines ln.
Proof.
  unfold keep_line, survives. destruct (truthy ln) eqn:Hln; [|reflexivity].
  rewrite counter_get_Counter, (frequency_filter_truthy lines ln Hln).
  cbn [negb andb]. destruct (_ && _); reflexivity.
Qed.

Lemma filtered_lines_survivors (raw_text : str) :
  filtered_lines raw_text
  = filter (survives (stripped_lines raw_text)) (stripped_lines raw_text).
Proof.
  unfold filtered_lines. apply filter_ext.
  intros ln. apply keep_line_survives.
Qed.

(* ================================================================= *)
(** ** The Cleaner: its output is a fixed point *)

Lemma single_spaced_weaken (s : str) :
  single_spaced true s = true -> single_spaced false s = true.
Proof.
  destruct s as [|c r]; [reflexivity|]. cbn [single_spaced].
  destruct (isspace c); [discriminate | auto].
Qed.

Lemma sub_runs_single_spaced (b : bool) (s : str) :
  single_spaced b (sub_runs isspace b s) = true.
Proof.
  revert b. induction s as [|c r IH]; intros b; [reflexivity|].
  cbn [sub_runs]. destruct (isspace c) eqn:Ec.
  - destruct b; [apply IH|].
    cbn [single_spaced]. change (isspace SP) with true.
    cbn [negb andb]. rewrite N.eqb_refl. apply IH.
  - cbn [single_spaced]. rewrite Ec. apply IH.
Qed.

Lemma sub_runs_fixed (b : bool) (s : str) :
  single_spaced b s = true -> sub_runs isspace b s = s.
Proof.
  revert b. induction s as [|c r IH]; intros b H; [reflexivity|].
  cbn [single_spaced sub_runs] in *. destruct (isspace c).
  - apply andb_true_iff in H. destruct H as [H Hr].
    apply andb_true_iff in H. destruct H as [Hb Hc].
    apply N.eqb_eq in Hc. subst c.
    destruct b; [discriminate|]. now rewrite (IH true Hr).
  - now rewrite (IH false H).
Qed.

Lemma single_spaced_only_spaces (b : bool) (s : str) :
  single_spaced b s = true ->
  Forall (fun c => isspace c = true -> c = SP) s.
Proof.
  revert b. induction s as [|c r IH]; intros b H; constructor.
  - intros Hc. cbn [single_spaced] in H. rewrite Hc in H.
    apply andb_true_iff in H. destruct H as [H _].
    apply andb_true_iff in H. destruct H as [_ H]. now apply N.eqb_eq in H.
  - cbn [single_spaced] in H. destruct (isspace c).
    + apply andb_true_iff in H. destruct H as [_ H]. exact (IH true H).
    + exact (IH false H).
Qed.

Lemma lstrip_single_spaced (b : bool) (s : str) :
  single_spaced b s = true -> single_spaced false (lstrip s) = true.
Proof.
  revert b. induction s as [|c r IH]; intros b H; [reflexivity|].
  cbn [lstrip]. destruct (isspace c) eqn:Ec.
  - cbn [single_spaced] in H. rewrite Ec in H.
    apply andb_true_iff in H. destruct H as [_ H]. exact (IH true H).
  - cbn [single_spaced] in *. rewrite Ec in *. exact H.
Qed.

Lemma rstrip_single_spaced (b : bool) (s : str) :
  single_spaced b s = true -> single_spaced b (rstrip s) = true.
Proof.
  revert b. induction s as [|c r IH]; intros b H; [reflexivity|].
  cbn [rstrip]. cbn [single_spaced] in H.
  destruct (rstrip r) as [|d r'] eqn:Er.
  - destruct (isspace c) eqn:Ec; [reflexivity|].
    cbn [single_spaced]. now rewrite Ec.
  - cbn [single_spaced]. destruct (isspace c).
    + apply andb_true_iff in H. destruct H as [H Hr].
      rewrite H. exact (IH true Hr).
    + exact (IH false H).
Qed.

Lemma lstrip_no_leading_space (s : str) :
  no_leading_space (lstrip s) = true.
Proof.
  induction s as [|c r IH]; [reflexivity|].
  cbn [lstrip]. destruct (isspace c) eqn:Ec; [exact IH|].
  cbn [no_leading_space]. now rewrite Ec.
Qed.

Lemma rstrip_no_leading_space (s : str) :
  no_leading_space s = true -> no_leading_space (rstrip s) = true.
Proof.
  destruct s as [|c r]; [reflexivity|]. cbn [rstrip no_leading_space].
  intros H. destruct (rstrip r); [|exact H].
  destruct (isspace c) eqn:Ec; [reflexivity|].
  cbn [no_leading_space]. now rewrite Ec.
Qed.

Lemma lstrip_fixed (s : str) :
  no_leading_space s = true -> lstrip s = s.
Proof.
  destruct s as [|c r]; [reflexivity|]. cbn [lstrip no_leading_space].
  destruct (isspace c); [discriminate | reflexivity].
Qed.

Lemma rstrip_idempotent (s : str) : rstrip (rstrip s) = rstrip s.
Proof.
  induction s as [|c r IH]; [reflexivity|].
  cbn [rstrip]. destruct (rstrip r) as [|d r'] eqn:Er.
  - destruct (isspace c) eqn:Ec; [reflexivity|].
    cbn [rstrip]. now rewrite Ec.
  - cbn [rstrip] in *. rewrite IH. reflexivity.
Qed.

Lemma strip_idempotent (s : str) : strip (strip s) = strip s.
Proof.
  unfold strip.
  rewrite (lstrip_fixed (rstrip (lstrip s))).
  - apply rstrip_idempotent.
  - apply rstrip_no_leading_space, lstrip_no_leading_space.
Qed.

Lemma replace_crlf_fixed (s : str) :
  Forall (fun c => c <> CR) s -> replace_crlf s = s.
Proof.
  induction s as [|c r IH]; intros H; [reflexivity|].
  inversion H as [|? ? Hc Hr]; subst.
  cbn [replace_crlf]. destruct r as [|d r']; [reflexivity|].
  apply N.eqb_neq in Hc. rewrite Hc. cbn [andb].
  now rewrite (IH Hr).
Qed.

Lemma replace_cr_fixed (s : str) :
  Forall (fun c => c <> CR) s -> replace_cr s = s.
Proof.
  unfold replace_cr. induction 1 as [|c r Hc Hr IH]; [reflexivity|].
  cbn [map]. apply N.eqb_neq in Hc. now rewrite Hc, IH.
Qed.

Lemma split_on_absent (sep : codepoint) (s : str) :
  Forall (fun c => c <> sep) s -> split_on sep s = [s].
Proof.
  induction 1 as [|c r Hc Hr IH]; [reflexivity|].
  cbn [split_on]. apply N.eqb_neq in Hc. now rewrite Hc, IH.
Qed.

Lemma sub_runs_absent (cls : codepoint -> bool) (b : bool) (s : str) :
  Forall (fun c => cls c = false) s -> sub_runs cls b s = s.
Proof.
  intros H. revert b. induction H as [|c r Hc Hr IH]; intros b; [reflexivity|].
  cbn [sub_runs]. now rewrite Hc, IH.
Qed.

(** What the Cleaner returns: single-spaced text, already stripped. *)
Lemma clean_output_tidy (raw_text : str) :
  single_spaced false (_clean_extracted_text raw_text) = true
  /\ strip (_clean_extracted_text raw_text) = _clean_extracted_text raw_text.
Proof.
  unfold _clean_extracted_text.
  destruct (negb (truthy raw_text)); [split; reflexivity|].
  cbv zeta. split.
  - unfold strip, re_sub_runs.
    apply rstrip_single_spaced, (lstrip_single_spaced false).
    apply sub_runs_single_spaced.
  - apply strip_idempotent.
Qed.

(** The Cleaner leaves tidy text as it is. *)
Lemma clean_fixed (s : str) :
  single_spaced false s = true -> strip s = s ->
  _clean_extracted_text s = s.
Proof.
  intros Hss Hstrip. destruct s as [|c0 r0] eqn:Es; [reflexivity|].
  rewrite <- Es in *. unfold _clean_extracted_text.
  replace (truthy s) with true by (subst s; reflexivity).
  cbn [negb]. cbv zeta.
  pose proof (single_spaced_only_spaces false s Hss) as Hsp.
  assert (Hcr : Forall (fun c => c <> CR) s).
  { eapply Forall_impl; [|exact Hsp]. intros c Hc ->.
    specialize (Hc eq_refl). discriminate. }
  assert (Hlf : Forall (fun c => c <> LF) s).
  { eapply Forall_impl; [|exact Hsp]. intros c Hc ->.
    specialize (Hc eq_refl). discriminate. }
  assert (Htab : Forall (fun c => is_tab_nbsp c = false) s).
  { eapply Forall_impl; [|exact Hsp]. intros c Hc.
    destruct (is_tab_nbsp c) eqn:Et; [|reflexivity].
    unfold is_tab_nbsp in Et. apply orb_true_iff in Et.
    destruct Et as [Et | Et]; apply N.eqb_eq in Et; subst c;
      specialize (Hc eq_refl); discriminate. }
  assert (Hlines : filtered_lines s = [s]).
  { unfold filtered_lines, stripped_lines.
    rewrite (replace_crlf_fixed s Hcr), (replace_cr_fixed s Hcr),
      (split_on_absent LF s Hlf).
    cbn [map]. rewrite Hstrip. subst s.
    cbn [filter truthy]. unfold Counter. cbn [fold_left counter_incr].
    unfold keep_line. cbn [truthy negb counter_get].
    rewrite str_eqb_refl. reflexivity. }
  rewrite Hlines. cbn [join]. unfold re_sub_runs.
  rewrite (sub_runs_absent is_tab_nbsp false s Htab).
  rewrite (sub_runs_fixed false s Hss). exact Hstrip.
Qed.

(** C7: the Cleaner is idempotent: cleaning cleaned text gives the same
    text. *)
Theorem C7_cleaner_idempotent :
  forall s : str,
    _clean_extracted_text (_clean_extracted_text s) = _clean_extracted_text s.
Proof.
  intros s. destruct (clean_output_tidy s) as [Hss Hstrip].
  exact (clean_fixed (_clean_extracted_text s) Hss Hstrip).
Qed.

(* ================================================================= *)
(** ** The Cleaner: shape of the output, blank input, line endings *)

Lemma single_spaced_no_double_space (b : bool) (s : str) :
  single_spaced b s = true -> contains s [SP; SP] = false.
Proof.
  revert b. induction s as [|c r IH]; intros b H; [reflexivity|].
  cbn [contains]. apply orb_false_iff. split.
  - cbn [single_spaced] in H. cbn [starts_with].
    destruct (N.eqb_spec SP c) as [<-|]; [|reflexivity].
    change (isspace SP) with true in H.
    apply andb_true_iff in H. destruct H as [_ H].
    destruct r as [|d r]; [reflexivity|]. cbn [single_spaced] in H.
    destruct (N.eqb_spec SP d) as [<-|]; [|reflexivity].
    change (isspace SP) with true in H. discriminate.
  - cbn [single_spaced] in H. destruct (isspace c).
    + apply andb_true_iff in H. destruct H as [_ H]. exact (IH true H).
    + exact (IH false H).
Qed.

Lemma rstrip_last_not_space (s r : str) (ch : codepoint) :
  rstrip s = r ++ [ch] -> isspace ch = false.
Proof.
  revert r. induction s as [|c t IH]; intros r H.
  - destruct r; discriminate.
  - cbn [rstrip] in H. destruct (rstrip t) as [|d t'] eqn:Et.
    + destruct (isspace c) eqn:Ec; [destruct r; discriminate|].
      destruct r as [|x r]; [injection H as <-; exact Ec|].
      destruct r; discriminate.
    + destruct r as [|x r]; [discriminate|].
      injection H as _ H. exact (IH r H).
Qed.

Lemma strip_fixed_ends (s : str) :
  strip s = s ->
  no_leading_space s = true
  /\ forall r ch, s = r ++ [ch] -> isspace ch = false.
Proof.
  intros H. split.
  - rewrite <- H. unfold strip.
    apply rstrip_no_leading_space, lstrip_no_leading_space.
  - intros r ch E. apply (rstrip_last_not_space (lstrip s) r).
    fold (strip s). congruence.
Qed.

(** The cleaned text is one line of words separated by single spaces: its
    only whitespace characters are spaces, no two spaces are adjacent, and
    it neither starts nor ends with whitespace. *)
Theorem cleaned_text_is_single_spaced :
  forall raw_text : str,
    let cleaned := _clean_extracted_text raw_text in
    Forall (fun c => isspace c = true -> c = SP) cleaned
    /\ contains cleaned [SP; SP] = false
    /\ (forall c r, cleaned = c :: r -> isspace c = false)
    /\ (forall r c, cleaned = r ++ [c] -> isspace c = false).
Proof.
  intros raw_text cleaned.
  destruct (clean_output_tidy raw_text) as [Hss Hstrip].
  fold cleaned in Hss, Hstrip.
  destruct (strip_fixed_ends cleaned Hstrip) as [Hlead Hlast].
  split; [exact (single_spaced_only_spaces false cleaned Hss)|].
  split; [exact (single_spaced_no_double_space false cleaned Hss)|].
  split; [|exact Hlast].
  intros c r E. rewrite E in Hlead. cbn [no_leading_space] in Hlead.
  now apply negb_true_iff in Hlead.
Qed.

(** The texts the Cleaner leaves unchanged are exactly the stripped,
    single-spaced ones. *)
Theorem cleaner_fixed_points :
  forall s : str,
    _clean_extracted_text s = s
    <-> single_spaced false s = true /\ strip s = s.
Proof.
  intros s. split.
  - intros E. rewrite <- E. apply clean_output_tidy.
  - intros [Hss Hstrip]. exact (clean_fixed s Hss Hstrip).
Qed.

Lemma replace_crlf_Forall_aux (P : codepoint -> Prop) (s : str) :
  P LF ->
  (Forall P s -> Forall P (replace_crlf s))
  /\ (forall c, P c -> Forall P s -> Forall P (replace_crlf (c :: s))).
Proof.
  intros HLF. induction s as [|d r [IH1 IH2]].
  - split; [auto|]. intros c Hc _. repeat constructor. exact Hc.
  - assert (H1 : Forall P (d :: r) -> Forall P (replace_crlf (d :: r))).
    { intros H. inversion H; subst. now apply IH2. }
    split; [exact H1|]. intros c Hc H.
    cbn [replace_crlf]. destruct ((c =? CR) && (d =? LF))%N.
    + constructor; [exact HLF|]. apply IH1. now inversion H.
    + constructor; [exact Hc|]. exact (H1 H).
Qed.

Lemma replace_crlf_Forall (P : codepoint -> Prop) (s : str) :
  P LF -> Forall P s -> Forall P (replace_crlf s).
Proof. intros HLF. exact (proj1 (replace_crlf_Forall_aux P s HLF)). Qed.

Lemma replace_cr_Forall (P : codepoint -> Prop) (s : str) :
  P LF -> Forall P s -> Forall P (replace_cr s).
Proof.
  intros HLF H. unfold replace_cr. induction H as [|c r Hc Hr IH]; cbn [map].
  - constructor.
  - constructor; [destruct (c =? CR)%N; assumption | exact IH].
Qed.

Lemma split_on_Forall (P : codepoint -> Prop) (sep : codepoint) (s : str) :
  Forall P s -> Forall (Forall P) (split_on sep s).
Proof.
  induction 1 as [|c r Hc Hr IH]; cbn [split_on].
  - repeat constructor.
  - destruct (c =? sep)%N; [constructor; [constructor | exact IH]|].
    destruct (split_on sep r) as [|l ls]; [repeat constructor; exact Hc|].
    inversion IH; subst. constructor; [constructor|]; assumption.
Qed.

Lemma lstrip_blank (s : str) :
  Forall (fun c => isspace c = true) s -> lstrip s = [].
Proof.
  induction 1 as [|c r Hc Hr IH]; [reflexivity|].
  cbn [lstrip]. now rewrite Hc.
Qed.

Lemma filter_keep_blank_lines (counts : counter) (lines : list str) :
  Forall (Forall (fun c => isspace c = true)) lines ->
  filter (keep_line counts) (map strip lines) = [].
Proof.
  induction 1 as [|l ls Hl Hls IH]; [reflexivity|].
  cbn [map filter]. unfold strip at 1. rewrite (lstrip_blank l Hl).
  cbn [rstrip]. unfold keep_line at 1. cbn [truthy negb]. exact IH.
Qed.

Lemma filtered_lines_blank (s : str) :
  Forall (fun c => isspace c = true) s -> filtered_lines s = [].
Proof.
  intros H. unfold filtered_lines, stripped_lines.
  apply filter_keep_blank_lines, split_on_Forall.
  apply replace_cr_Forall; [reflexivity|].
  apply replace_crlf_Forall; [reflexivity | exact H].
Qed.

Lemma clean_blank (s : str) :
  Forall (fun c => isspace c = true) s -> _clean_extracted_text s = [].
Proof.
  intros H. unfold _clean_extracted_text.
  destruct (negb (truthy s)); [reflexivity|].
  rewrite (filtered_lines_blank s H). reflexivity.
Qed.

(** Text made of whitespace only, of whatever kind and length, is cleaned
    to the empty string. *)
Theorem blank_text_cleaned_to_empty :
  forall s : str,
    Forall (fun c => isspace c = true) s -> _clean_extracted_text s = [].
Proof. exact clean_blank. Qed.

Lemma blank_text_witness :
  Forall (fun c => isspace c = true) [SP; TAB; CR; LF; NBSP; 8232%N]
  /\ _clean_extracted_text [SP; TAB; CR; LF; NBSP; 8232%N] = [].
Proof.
  assert (H : Forall (fun c => isspace c = true)
                [SP; TAB; CR; LF; NBSP; 8232%N])
    by (repeat constructor).
  split; [exact H|]. exact (blank_text_cleaned_to_empty _ H).
Defined.

Lemma clean_ext (a b : str) :
  truthy a = truthy b ->
  replace_cr (replace_crlf a) = replace_cr (replace_crlf b) ->
  _clean_extracted_text a = _clean_extracted_text b.
Proof.
  intros Ht E. unfold _clean_extracted_text, filtered_lines, stripped_lines.
  rewrite Ht, E. reflexivity.
Qed.

Lemma replace_crlf_to_crlf (s : str) :
  Forall (fun c => c <> CR) s -> replace_crlf (to_crlf s) = s.
Proof.
  induction 1 as [|c r Hc Hr IH]; [reflexivity|].
  change (to_crlf (c :: r))
    with ((if (c =? LF)%N then [CR; LF] else [c]) ++ to_crlf r).
  destruct (N.eqb_spec c LF) as [->|Hlf].
  - cbn [app replace_crlf]. change ((CR =? CR) && (LF =? LF))%N with true.
    cbn iota. now rewrite IH.
  - cbn [app replace_crlf].
    destruct (to_crlf r) as [|d t] eqn:Et.
    + cbn [replace_crlf] in IH. now rewrite <- IH.
    + apply N.eqb_neq in Hc. rewrite Hc. cbn [andb]. now rewrite IH.
Qed.

Lemma replace_crlf_without_lf (s : str) :
  Forall (fun c => c <> LF) s -> replace_crlf s = s.
Proof.
  induction 1 as [|c r Hc Hr IH]; [reflexivity|].
  cbn [replace_crlf]. destruct r as [|d r']; [reflexivity|].
  inversion Hr as [|? ? Hd _]; subst.
  apply N.eqb_neq in Hd. rewrite Hd, andb_false_r. now rewrite IH.
Qed.

Lemma to_cr_without_lf (s : str) :
  Forall (fun c => c <> CR) s -> Forall (fun c => c <> LF) (to_cr s).
Proof.
  unfold to_cr. induction 1 as [|c r Hc Hr IH]; cbn [map]; constructor.
  - destruct (N.eqb_spec c LF); [discriminate | assumption].
  - exact IH.
Qed.

Lemma replace_cr_to_cr (s : str) :
  Forall (fun c => c <> CR) s -> replace_cr (to_cr s) = s.
Proof.
  unfold replace_cr, to_cr. induction 1 as [|c r Hc Hr IH]; [reflexivity|].
  cbn [map]. rewrite IH. f_equal.
  destruct (N.eqb_spec c LF) as [->|Hlf]; [reflexivity|].
  apply N.eqb_neq in Hc. now rewrite Hc.
Qed.

(** Line endings do not matter: a text written with line feeds is cleaned
    to the same result when its line ends are written CR LF or as lone CR
    instead. *)
Theorem cleaner_ignores_line_ending_style :
  forall s : str,
    Forall (fun c => c <> CR) s ->
    _clean_extracted_text (to_crlf s) = _clean_extracted_text s
    /\ _clean_extracted_text (to_cr s) = _clean_extracted_text s.
Proof.
  intros s H. split; apply clean_ext.
  - destruct s as [|c r]; [reflexivity|]. unfold to_crlf. cbn [flat_map].
    destruct (c =? LF)%N; reflexivity.
  - now rewrite (replace_crlf_to_crlf s H), (replace_crlf_fixed s H).
  - destruct s; reflexivity.
  - rewrite (replace_crlf_without_lf _ (to_cr_without_lf s H)).
    now rewrite (replace_cr_to_cr s H), (replace_crlf_fixed s H),
      (replace_cr_fixed s H).
Qed.

Lemma line_ending_witness :
  Forall (fun c => c <> CR) (lit "Skills" ++ [LF; LF] ++ lit "  Python ")
  /\ _clean_extracted_text
       (to_crlf (lit "Skills" ++ [LF; LF] ++ lit "  Python "))
     = lit "Skills Python"
  /\ _clean_extracted_text
       (to_cr (lit "Skills" ++ [LF; LF] ++ lit "  Python "))
     = lit "Skills Python".
Proof.
  assert (H : Forall (fun c => c <> CR)
                (lit "Skills" ++ [LF; LF] ++ lit "  Python "))
    by (repeat constructor; discriminate).
  split; [exact H|].
  destruct (cleaner_ignores_line_ending_style _ H) as [H1 H2].
  split; [rewrite H1 | rewrite H2]; reflexivity.
Defined.

(* ================================================================= *)
(** ** The Cleaner never lengthens the text *)

Lemma lstrip_length (s : str) : (List.length (lstrip s) <= List.length s)%nat.
Proof.
  induction s as [|c r IH]; [reflexivity|].
  cbn [lstrip]. destruct (isspace c); cbn [List.length]; lia.
Qed.

Lemma rstrip_length (s : str) : (List.length (rstrip s) <= List.length s)%nat.
Proof.
  induction s as [|c r IH]; [reflexivity|].
  cbn [rstrip]. destruct (rstrip r); [destruct (isspace c)|];
    cbn [List.length] in *; lia.
Qed.

Lemma strip_length (s : str) : (List.length (strip s) <= List.length s)%nat.
Proof.
  unfold strip. pose proof (rstrip_length (lstrip s)).
  pose proof (lstrip_length s). lia.
Qed.

Lemma sub_runs_length (cls : codepoint -> bool) (b : bool) (s : str) :
  (List.length (sub_runs cls b s) <= List.length s)%nat.
Proof.
  revert b. induction s as [|c r IH]; intros b; [reflexivity|].
  cbn [sub_runs]. destruct (cls c); [destruct b|]; cbn [List.length].
  - specialize (IH true). lia.
  - specialize (IH true). lia.
  - specialize (IH false). lia.
Qed.

Lemma replace_crlf_length (s : str) :
  (List.length (replace_crlf s) <= List.length s)%nat.
Proof.
  assert (G : (List.length (replace_crlf s) <= List.length s)%nat
              /\ forall c, (List.length (replace_crlf (c :: s))
                            <= S (List.length s))%nat).
  { induction s as [|d r [IH1 IH2]].
    - split; [reflexivity|]. intros c. cbn. lia.
    - split; [apply IH2|]. intros c.
      change (replace_crlf (c :: d :: r))
        with (if ((c =? CR) && (d =? LF))%N then LF :: replace_crlf r
              else c :: replace_crlf (d :: r)).
      destruct ((c =? CR) && (d =? LF))%N; cbn [List.length].
      + lia.
      + specialize (IH2 d). lia. }
  exact (proj1 G).
Qed.

Lemma split_on_total_length (sep : codepoint) (s : str) :
  list_sum (map (fun p => S (List.length p)) (split_on sep s))
  = S (List.length s).
Proof.
  induction s as [|c r IH]; [reflexivity|].
  cbn [split_on]. destruct (c =? sep)%N.
  - unfold list_sum in *; cbn [map List.length fold_right] in *; lia.
  - destruct (split_on sep r) as [|l ls].
    + cbn in IH. lia.
    + unfold list_sum in *; cbn [map List.length fold_right] in *; lia.
Qed.

Lemma join_total_length (sep : codepoint) (ps : list str) :
  ps <> [] ->
  S (List.length (join [sep] ps))
  = list_sum (map (fun p => S (List.length p)) ps).
Proof.
  induction ps as [|p ps IH]; [congruence|]. intros _.
  destruct ps as [|q ps].
  - cbn. lia.
  - change (join [sep] (p :: q :: ps)) with (p ++ [sep] ++ join [sep] (q :: ps)).
    rewrite !length_app. specialize (IH ltac:(discriminate)).
    unfold list_sum in *; cbn [map fold_right List.length] in *. lia.
Qed.

Lemma filter_strip_total_length (f : str -> bool) (lines : list str) :
  (list_sum (map (fun p => S (List.length p)) (filter f (map strip lines)))
   <= list_sum (map (fun p => S (List.length p)) lines))%nat.
Proof.
  induction lines as [|l ls IH]; [reflexivity|].
  cbn [map filter]. pose proof (strip_length l).
  destruct (f (strip l)); unfold list_sum in *; cbn [map fold_right] in *; lia.
Qed.

(** The cleaned text is never longer than the raw text. *)
Theorem cleaner_never_lengthens :
  forall raw_text : str, len (_clean_extracted_text raw_text) <= len raw_text.
Proof.
  intros raw. unfold len. apply inj_le.
  unfold _clean_extracted_text.
  destruct (negb (truthy raw)); [cbn; lia|]. cbv zeta.
  etransitivity; [apply strip_length|]. unfold re_sub_runs.
  etransitivity; [apply sub_runs_length|].
  etransitivity; [apply sub_runs_length|].
  unfold filtered_lines, stripped_lines.
  set (text := replace_cr (replace_crlf raw)).
  set (counts := Counter _).
  assert (Htext : (List.length text <= List.length raw)%nat).
  { subst text. unfold replace_cr. rewrite length_map.
    apply replace_crlf_length. }
  pose proof (filter_strip_total_length (keep_line counts) (split_on LF text))
    as Hsum.
  rewrite split_on_total_length in Hsum.
  destruct (filter (keep_line counts) (map strip (split_on LF text)))
    as [|p ps] eqn:Ef.
  - cbn. lia.
  - pose proof (join_total_length LF (p :: ps) ltac:(discriminate)) as Hj.
    change [LF] with [LF] in Hj. lia.
Qed.

(* ================================================================= *)
(** ** The tokenizer *)

Lemma count_words_is_count_tokens (s : str) :
  _count_words_robust s = count_tokens false s.
Proof. destruct s; reflexivity. Qed.

Lemma count_tokens_separator (st : bool) (a b : str) (c : codepoint) :
  is_word_char c = false -> is_joiner c = false ->
  count_tokens st (a ++ c :: b) = count_tokens st a + count_tokens false b.
Proof.
  intros Hc Hj. revert st. induction a as [|x a IH]; intros st.
  - cbn [app count_tokens]. rewrite Hc, Hj, andb_false_r. cbn [andb]. lia.
  - cbn [app count_tokens]. destruct (is_word_char x).
    + rewrite IH. lia.
    + assert (E : match a ++ c :: b with
                  | [] => false
                  | d :: _ => is_word_char d
                  end
                  = match a with [] => false | d :: _ => is_word_char d end).
      { destruct a; [exact Hc | reflexivity]. }
      rewrite E. destruct (st && is_joiner x && _); rewrite IH; lia.
Qed.

(** Word counts add up across a separator: when two texts are joined by a
    character that is neither a word character nor a hyphen or apostrophe (a
    space, a comma, a line feed), the count of the whole is the sum of the
    counts of the parts. *)
Theorem word_count_additive_over_separator :
  forall (a b : str) (c : codepoint),
    is_word_char c = false -> is_joiner c = false ->
    _count_words_robust (a ++ c :: b)
    = _count_words_robust a + _count_words_robust b.
Proof.
  intros a b c Hc Hj. rewrite !count_words_is_count_tokens.
  exact (count_tokens_separator false a b c Hc Hj).
Qed.

Lemma word_count_additive_witness :
  is_word_char SP = false /\ is_joiner SP = false
  /\ _count_words_robust (lit "state-of-the-art" ++ SP :: lit "web developer")
     = _count_words_robust (lit "state-of-the-art")
       + _count_words_robust (lit "web developer").
Proof.
  split; [reflexivity|]. split; [reflexivity|].
  exact (word_count_additive_over_separator _ _ SP eq_refl eq_refl).
Defined.

Lemma count_tokens_bound (st : bool) (s : str) :
  0 <= count_tokens st s
  /\ 2 * count_tokens st s <= len s + (if st then 0 else 1).
Proof.
  unfold len. revert st. induction s as [|c r IH]; intros st.
  - cbn. destruct st; lia.
  - cbn [count_tokens]. rewrite length_cons, Nat2Z.inj_succ.
    pose proof (IH true) as [Ht0 Ht]. pose proof (IH false) as [Hf0 Hf].
    cbn iota in Ht, Hf.
    destruct (is_word_char c); [destruct st; lia|].
    destruct (st && is_joiner c && _); destruct st; lia.
Qed.

(** The word count is never negative and at most half the length of the
    text, rounded up: two words need a character between them. *)
Theorem word_count_at_most_half_length :
  forall s : str,
    0 <= _count_words_robust s /\ 2 * _count_words_robust s <= len s + 1.
Proof.
  intros s. rewrite count_words_is_count_tokens.
  exact (count_tokens_bound false s).
Qed.

Lemma count_tokens_none (st : bool) (s : str) :
  Forall (fun c => is_word_char c = false) s -> count_tokens st s = 0.
Proof.
  intros H. revert st. induction H as [|c r Hc Hr IH]; intros st;
    [reflexivity|].
  cbn [count_tokens]. rewrite Hc.
  destruct (st && is_joiner c && _); apply IH.
Qed.

Lemma count_tokens_pos_has_word_char (st : bool) (s : str) :
  0 < count_tokens st s -> Exists (fun c => is_word_char c = true) s.
Proof.
  revert st. induction s as [|c r IH]; intros st H; [cbn in H; lia|].
  cbn [count_tokens] in H. destruct (is_word_char c) eqn:Ec.
  - now apply Exists_cons_hd.
  - apply Exists_cons_tl.
    destruct (st && is_joiner c && _); exact (IH _ H).
Qed.

Lemma has_word_char_count_tokens_pos (s : str) :
  Exists (fun c => is_word_char c = true) s -> 0 < count_tokens false s.
Proof.
  induction 1 as [c r Hc | c r Hr IH]; cbn [count_tokens].
  - rewrite Hc. pose proof (count_tokens_bound true r). lia.
  - destruct (is_word_char c).
    + pose proof (count_tokens_bound true r). lia.
    + cbn [andb]. exact IH.
Qed.

(** A text has a word count above zero exactly when it holds at least one
    letter or digit of the token class; punctuation and whitespace alone
    count for nothing. *)
Theorem word_count_positive_iff_has_word_char :
  forall s : str,
    0 < _count_words_robust s
    <-> Exists (fun c => is_word_char c = true) s.
Proof.
  intros s. rewrite count_words_is_count_tokens. split.
  - apply count_tokens_pos_has_word_char.
  - apply has_word_char_count_tokens_pos.
Qed.

(* ================================================================= *)
(** ** The Detector: overlapping vocabulary and monotonicity *)

Lemma contains_trans (s p q : str) :
  contains s p = true -> contains p q = true -> contains s q = true.
Proof.
  rewrite !contains_iff. intros (a & b & ->) (c & d & ->).
  exists (a ++ c), (d ++ b). now rewrite <- !app_assoc.
Qed.

Lemma count_if_mono {A : Type} (f g : A -> bool) (xs : list A) :
  (forall x, f x = true -> g x = true) ->
  count_if f xs <= count_if g xs.
Proof.
  intros H. induction xs as [|x xs IH]; cbn [count_if]; [lia|].
  pose proof (count_if_bounds g xs).
  destruct (f x) eqn:Ef; [rewrite (H x Ef); lia|].
  destruct (g x); lia.
Qed.

Lemma any_in_mono (n n' : str) (ks : list str) :
  contains n' n = true -> any_in n ks = true -> any_in n' ks = true.
Proof.
  intros Hn. unfold any_in. rewrite !existsb_exists.
  intros (k & Hk & Hc). exists k. split; [exact Hk|].
  exact (contains_trans n' n k Hn Hc).
Qed.

Lemma count_if_app {A : Type} (f : A -> bool) (xs ys : list A) :
  count_if f (xs ++ ys) = count_if f xs + count_if f ys.
Proof.
  induction xs as [|x xs IH]; cbn [app count_if]; [lia|].
  destruct (f x); lia.
Qed.

Lemma count_if_two {A : Type} (f : A -> bool) (l : list A) (x y : A)
    (pre mid post : list A) :
  l = pre ++ x :: mid ++ y :: post ->
  f x = true -> f y = true -> 2 <= count_if f l.
Proof.
  intros -> Hx Hy. rewrite count_if_app. cbn [count_if]. rewrite Hx.
  rewrite count_if_app. cbn [count_if]. rewrite Hy.
  pose proof (count_if_bounds f pre). pose proof (count_if_bounds f mid).
  pose proof (count_if_bounds f post). lia.
Qed.

(** The test for the projects flag reads "projects" or "project"; the first
    alternative changes nothing: the flag is set exactly when the text
    contains "project". *)
Theorem projects_flag_iff_contains_project :
  forall normalized : str,
    dict_get (sections_present normalized) "projects"
    = Some (contains normalized (lit "project")).
Proof.
  intros n. unfold sections_present.
  cbn [dict_get String.eqb Ascii.eqb Bool.eqb]. f_equal.
  destruct (contains n (lit "projects")) eqn:E; [|reflexivity].
  cbn [orb]. symmetry. apply (contains_trans n (lit "projects")); [exact E|].
  reflexivity.
Qed.

(** Keywords are matched as substrings, so vocabulary entries that contain
    one another are counted together: a text that mentions "javascript"
    scores at least two keyword hits, "java" being found inside it. *)
Theorem javascript_counts_twice :
  forall normalized : str,
    contains normalized (lit "javascript") = true ->
    2 <= keyword_hits normalized.
Proof.
  intros n H.
  assert (Hj : contains n (lit "java") = true)
    by (apply (contains_trans n (lit "javascript")); [exact H | reflexivity]).
  unfold keyword_hits.
  apply (count_if_two _ keywords (lit "java") (lit "javascript")
           [lit "python"] [] (skipn 3 keywords));
    [vm_compute; reflexivity | exact Hj | exact H].
Qed.

Lemma javascript_witness :
  contains (lit "i write javascript") (lit "javascript") = true
  /\ 2 <= keyword_hits (lit "i write javascript").
Proof.
  split; [reflexivity|].
  exact (javascript_counts_twice (lit "i write javascript") eq_refl).
Defined.

(** Keyword hits and the structure count never go down when the normalized
    text is found inside a larger one: text added before or after can only
    add matches. *)
Theorem keyword_and_structure_signals_monotone :
  forall n n' : str,
    contains n' n = true ->
    keyword_hits n <= keyword_hits n'
    /\ structure_hits (sections_present n)
       <= structure_hits (sections_present n').
Proof.
  intros n n' H. split.
  - apply count_if_mono. intros k. exact (contains_trans n' n k H).
  - unfold sections_present. rewrite !structure_hits_sections.
    assert (M : forall a b : bool, (a = true -> b = true) ->
                                   Z.b2z a <= Z.b2z b)
      by (intros [|] [|] Hab; cbn; try lia; discriminate (Hab eq_refl)).
    pose proof (M _ _ (any_in_mono n n'
      (map lit ["education"; "bachelor"; "master"; "university"; "degree"]%string) H)).
    pose proof (M _ _ (any_in_mono n n'
      (map lit ["experience"; "work"; "internship"; "employment"]%string) H)).
    pose proof (M _ _ (contains_trans n' n (lit "skills") H)).
    assert (Hp : contains n (lit "projects") || contains n (lit "project") = true ->
                 contains n' (lit "projects") || contains n' (lit "project") = true).
    { rewrite !orb_true_iff.
      intros [E|E]; [left|right]; exact (contains_trans n' n _ H E). }
    pose proof (M _ _ Hp). lia.
Qed.

Lemma signals_monotone_witness :
  contains (lit "skills: python and sql") (lit "python") = true
  /\ keyword_hits (lit "python") <= keyword_hits (lit "skills: python and sql")
  /\ structure_hits (sections_present (lit "python"))
     <= structure_hits (sections_present (lit "skills: python and sql")).
Proof.
  split; [reflexivity|].
  exact (keyword_and_structure_signals_monotone
           (lit "python") (lit "skills: python and sql") eq_refl).
Defined.

(** Action-verb hits never go down when text is added to the normalized
    text with a space in between, before it, after it or on both sides. *)
Theorem action_hits_monotone_across_spaces :
  forall n pre post : str,
    action_hits n <= action_hits (n ++ SP :: post)
    /\ action_hits n <= action_hits (pre ++ SP :: n)
    /\ action_hits n <= action_hits (pre ++ SP :: n ++ SP :: post).
Proof.
  intros n pre post.
  assert (G : forall n', contains (padded n') (padded n) = true ->
                         action_hits n <= action_hits n').
  { intros n' H. apply count_if_mono. intros v. unfold verb_matches.
    exact (contains_trans (padded n') (padded n) (padded v) H). }
  repeat split; apply G; apply contains_iff; unfold padded.
  - exists [], (post ++ [SP]).
    repeat (rewrite <- app_assoc || rewrite <- app_comm_cons). reflexivity.
  - exists (SP :: pre), []. rewrite app_nil_r.
    repeat (rewrite <- app_assoc || rewrite <- app_comm_cons). reflexivity.
  - exists (SP :: pre), (post ++ [SP]).
    repeat (rewrite <- app_assoc || rewrite <- app_comm_cons). reflexivity.
Qed.

(* ================================================================= *)
(** ** [analyze_resume]: when suggestions are made *)

Lemma in_ideal_band_iff (wc : Z) :
  in_ideal_band wc = true <-> 350 <= wc <= 600.
Proof. unfold in_ideal_band. rewrite andb_true_iff, !Z.leb_le. tauto. Qed.

(** [analyze_resume] in closed form, with the section flags named. *)
Lemma analyze_resume_closed (lower : str -> str) (text : str) :
  let cleaned := _clean_extracted_text text in
  let normalized := lower cleaned in
  let wc := _count_words_robust cleaned in
  let kh := keyword_hits normalized in
  let ah := action_hits normalized in
  exists e x s p b : bool,
    sections_present normalized
    = [ ("education", e); ("experience", x); ("skills", s); ("projects", p);
        ("bullets", b) ]%string
    /\ 0 <= kh <= 22 /\ 0 <= ah <= 20
    /\ analyze_resume lower text
       = Some
           {| score :=
                4 * Z.min kh 10 + 5 * (Z.b2z e + Z.b2z x + Z.b2z s + Z.b2z p)
                + 2 * Z.min ah 10 + word_count_score wc;
              breakdown :=
                details.mk kh ah wc (Z.b2z e + Z.b2z x + Z.b2z s + Z.b2z p)
                  (4 * Z.min kh 10)
                  (5 * (Z.b2z e + Z.b2z x + Z.b2z s + Z.b2z p))
                  (2 * Z.min ah 10) (word_count_score wc);
              suggestions := firstn 3 (generated wc e x s p b kh ah) |}.
Proof.
  intros cleaned normalized wc kh ah.
  destruct (hits_bounds normalized) as [Hkh Hah]. fold kh ah in Hkh, Hah.
  unfold analyze_resume. fold cleaned normalized wc kh ah.
  pose proof (word_count_score_values wc) as Hw.
  clearbody kh ah wc.
  destruct (sections_present_shape normalized) as (e & x & s & p & b & E).
  exists e, x, s, p, b. rewrite E.
  split; [reflexivity|]. split; [exact Hkh|]. split; [exact Hah|].
  rewrite (scorer_spec wc e x s p b kh ah Hkh (proj1 Hah)).
  cbv zeta. do 2 f_equal.
  simpl in Hw. destruct e, x, s, p; cbn [Z.b2z]; lia.
Qed.

Lemma generated_nil_iff (wc : Z) (e x s p b : bool) (kh ah : Z) :
  generated wc e x s p b kh ah = []
  <-> 6 <= kh /\ e = true /\ x = true /\ s = true /\ p = true
      /\ 5 <= ah /\ 350 <= wc <= 600 /\ b = true.
Proof.
  rewrite <- in_ideal_band_iff. unfold generated.
  destruct (Z.ltb_spec kh 6), (Z.ltb_spec ah 5), (in_ideal_band wc),
    e, x, s, p, b; cbn [app];
    (split; [intros E; try discriminate E; repeat split; (lia || reflexivity)
            | intros (? & ? & ? & ? & ? & ? & ? & ?);
              try reflexivity; try discriminate; lia]).
Qed.

Lemma firstn_nil_iff {A : Type} (n : nat) (l : list A) :
  firstn (S n) l = [] <-> l = [].
Proof. destruct l; cbn; split; congruence. Qed.

(** No suggestion is returned exactly when six keywords or more are hit,
    the five flags education, experience, skills, projects and bullets are
    all set, five action verbs or more are hit and the word count lies in
    the band from 350 to 600. *)
Theorem no_suggestions_iff_all_criteria_met :
  forall (lower : str -> str) (text : str),
    let cleaned := _clean_extracted_text text in
    let normalized := lower cleaned in
    exists r : analysis,
      analyze_resume lower text = Some r
      /\ (suggestions r = []
          <-> 6 <= keyword_hits normalized
              /\ sections_present normalized
                 = [ ("education", true); ("experience", true);
                     ("skills", true); ("projects", true);
                     ("bullets", true) ]%string
              /\ 5 <= action_hits normalized
              /\ 350 <= _count_words_robust cleaned <= 600).
Proof.
  intros lower text cleaned normalized.
  destruct (analyze_resume_closed lower text)
    as (e & x & s & p & b & E & _ & _ & Hr).
  fold cleaned normalized in E, Hr.
  eexists. split; [exact Hr|]. cbn [suggestions].
  rewrite firstn_nil_iff, generated_nil_iff, E. split.
  - intros (? & -> & -> & -> & -> & ? & ? & ->). auto.
  - intros (? & [= -> -> -> -> ->] & ? & ?). repeat split; (lia || reflexivity).
Qed.

(** The score is 100 exactly when ten keywords or more are hit, the four
    sections are all present, ten action verbs or more are hit and the word
    count lies in the band from 350 to 600; the only suggestion a perfect
    score can still come with is the one about bullets. *)
Theorem perfect_score_iff :
  forall (lower : str -> str) (text : str),
    let cleaned := _clean_extracted_text text in
    let normalized := lower cleaned in
    exists r : analysis,
      analyze_resume lower text = Some r
      /\ (score r = 100
          <-> 10 <= keyword_hits normalized
              /\ structure_hits (sections_present normalized) = 4
              /\ 10 <= action_hits normalized
              /\ 350 <= _count_words_robust cleaned <= 600)
      /\ (score r = 100 ->
          suggestions r = [] \/ suggestions r = [SuggestBullets]).
Proof.
  intros lower text cleaned normalized.
  destruct (analyze_resume_closed lower text)
    as (e & x & s & p & b & E & Hkh & Hah & Hr).
  fold cleaned normalized in E, Hkh, Hah, Hr.
  eexists. split; [exact Hr|]. cbn [score suggestions].
  rewrite E, structure_hits_sections.
  set (kh := keyword_hits normalized) in *.
  set (ah := action_hits normalized) in *.
  set (wc := _count_words_robust cleaned) in *. clearbody kh ah wc.
  assert (Hscore :
    4 * Z.min kh 10 + 5 * (Z.b2z e + Z.b2z x + Z.b2z s + Z.b2z p)
    + 2 * Z.min ah 10 + word_count_score wc = 100
    <-> 10 <= kh /\ Z.b2z e + Z.b2z x + Z.b2z s + Z.b2z p = 4
        /\ 10 <= ah /\ 350 <= wc <= 600).
  { rewrite <- in_ideal_band_iff. unfold word_count_score.
    destruct (in_ideal_band wc); [|destruct (_ && _)];
      destruct e, x, s, p; cbn [Z.b2z]; split;
      try (intros H; repeat split; (lia || discriminate));
      try (intros (? & ? & ? & ?); (lia || discriminate)). }
  split; [exact Hscore|].
  intros H. apply Hscore in H. destruct H as (H1 & H2 & H3 & H4).
  apply in_ideal_band_iff in H4. unfold generated. rewrite H4.
  destruct (Z.ltb_spec kh 6); [lia|]. destruct (Z.ltb_spec ah 5); [lia|].
  destruct e, x, s, p; cbn [Z.b2z] in H2; try lia.
  destruct b; [left | right]; reflexivity.
Qed.

(** The cut at three suggestions never removes the keywords suggestion: it
    is returned exactly when fewer than six keywords are hit. *)
Theorem keywords_suggestion_iff_fewer_than_six_hits :
  forall (lower : str -> str) (text : str),
    let normalized := lower (_clean_extracted_text text) in
    exists r : analysis,
      analyze_resume lower text = Some r
      /\ (In SuggestKeywords (suggestions r) <-> keyword_hits normalized < 6).
Proof.
  intros lower text normalized.
  destruct (analyze_resume_closed lower text)
    as (e & x & s & p & b & _ & _ & _ & Hr).
  fold normalized in Hr.
  eexists. split; [exact Hr|]. cbn [suggestions]. unfold generated.
  destruct (Z.ltb_spec (keyword_hits normalized) 6) as [Hlt|Hge].
  - split; [intros _; exact Hlt | intros _; left; reflexivity].
  - split; [|lia]. intros Hin. exfalso.
    apply (In_nth_error) in Hin. destruct Hin as [i Hi].
    assert (Hall : Forall (fun sg => sg <> SuggestKeywords)
              (firstn 3
                 ([] ++ (if e then [] else [SuggestSection "Education"])
                  ++ (if x then [] else [SuggestSection "Experience"])
                  ++ (if s then [] else [SuggestSection "Skills"])
                  ++ (if p then [] else [SuggestSection "Projects"])
                  ++ (if action_hits normalized <? 5 then [SuggestImpact] else [])
                  ++ (if in_ideal_band
                           (_count_words_robust (_clean_extracted_text text))
                      then [] else [SuggestLength])
                  ++ (if b then [] else [SuggestBullets])))).
    { destruct e, x, s, p, (action_hits normalized <? 5), (in_ideal_band _), b;
        cbn [app firstn]; repeat constructor; discriminate. }
    apply nth_error_In in Hi. rewrite Forall_forall in Hall.
    exact (Hall _ Hi eq_refl).
Qed.

(** Analysing text that has already been cleaned gives the same result as
    analysing the raw text. *)
Theorem analysis_of_cleaned_text_is_the_same :
  forall (lower : str -> str) (text : str),
    analyze_resume lower (_clean_extracted_text text)
    = analyze_resume lower text.
Proof.
  intros lower text. unfold analyze_resume.
  destruct (clean_output_tidy text) as [Hss Hstrip].
  now rewrite (clean_fixed (_clean_extracted_text text) Hss Hstrip).
Qed.

(** A text of whitespace only is analysed exactly like the empty text. *)
Theorem blank_text_analysed_like_empty :
  forall (lower : str -> str) (text : str),
    Forall (fun c => isspace c = true) text ->
    analyze_resume lower text = analyze_resume lower [].
Proof.
  intros lower text H. unfold analyze_resume.
  rewrite (clean_blank text H). reflexivity.
Qed.

Lemma blank_analysis_witness :
  Forall (fun c => isspace c = true) [LF; SP; TAB]
  /\ analyze_resume lower_latin1 [LF; SP; TAB] = analyze_resume lower_latin1 [].
Proof.
  assert (H : Forall (fun c => isspace c = true) [LF; SP; TAB])
    by (repeat constructor).
  split; [exact H|]. exact (blank_text_analysed_like_empty lower_latin1 _ H).
Defined.

(* ================================================================= *)
(** ** The upload boundary: accepted file names and the stored row *)

Lemma rsplit_last_some (sep : codepoint) (s : str) :
  contains s [sep] = true -> exists a b, rsplit_last sep s = Some (a, b).
Proof.
  induction s as [|c r IH]; [discriminate|].
  cbn [contains starts_with rsplit_last]. intros H.
  destruct (rsplit_last sep r) as [[a b]|]; [eauto|].
  destruct (N.eqb_spec sep c) as [<-|Hne].
  - rewrite N.eqb_refl. eauto.
  - cbn [andb orb] in H. destruct (IH H) as (a & b & E). discriminate.
Qed.

Lemma rsplit_last_app (sep : codepoint) (stem ext : str) :
  Forall (fun c => c <> sep) ext ->
  rsplit_last sep (stem ++ sep :: ext) = Some (stem, ext).
Proof.
  intros Hext.
  assert (Hnone : rsplit_last sep ext = None).
  { induction Hext as [|c r Hc Hr IH]; [reflexivity|].
    cbn [rsplit_last]. rewrite IH. apply N.eqb_neq in Hc. now rewrite Hc. }
  induction stem as [|c stem IH]; cbn [app rsplit_last].
  - now rewrite Hnone, N.eqb_refl.
  - now rewrite IH.
Qed.

(** [allowed_file] never raises: the test for a dot comes first, so the
    index into the split name is always in range; and no name without a dot
    is accepted. *)
Theorem allowed_file_never_raises :
  forall (lower : str -> str) (filename : str),
  exists b : bool,
    allowed_file lower filename = Some b
    /\ (b = true -> contains filename [DOT] = true).
Proof.
  intros lower filename. unfold allowed_file.
  destruct (contains filename [DOT]) eqn:E.
  - destruct (rsplit_last_some DOT filename E) as (a & b & Hs).
    unfold rsplit1. rewrite Hs. cbn [py_index nth_error bind]. eauto.
  - exists false. split; [reflexivity | discriminate].
Qed.

(** Only what follows the last dot decides: a name is accepted exactly
    when that part, lowercased, is one of pdf, jpg, jpeg, png, docx,
    whatever stands before it. *)
Theorem allowed_file_decided_by_last_extension :
  forall (lower : str -> str) (stem ext : str),
    Forall (fun c => c <> DOT) ext ->
    allowed_file lower (stem ++ DOT :: ext)
    = Some (mem_str (lower ext) ALLOWED_EXTENSIONS).
Proof.
  intros lower stem ext Hext. unfold allowed_file.
  assert (E : contains (stem ++ DOT :: ext) [DOT] = true).
  { apply contains_iff. exists stem, ext. reflexivity. }
  rewrite E. unfold rsplit1. rewrite (rsplit_last_app DOT stem ext Hext).
  reflexivity.
Qed.

Lemma allowed_file_witness :
  Forall (fun c => c <> DOT) (lit "PDF")
  /\ allowed_file lower_latin1 (lit "cv.final" ++ DOT :: lit "PDF") = Some true
  /\ Forall (fun c => c <> DOT) (lit "exe")
  /\ allowed_file lower_latin1 (lit "cv.pdf" ++ DOT :: lit "exe") = Some false.
Proof.
  assert (H1 : Forall (fun c => c <> DOT) (lit "PDF"))
    by (repeat constructor; discriminate).
  assert (H2 : Forall (fun c => c <> DOT) (lit "exe"))
    by (repeat constructor; discriminate).
  split; [exact H1|]. split.
  - rewrite (allowed_file_decided_by_last_extension lower_latin1 _ _ H1).
    reflexivity.
  - split; [exact H2|].
    rewrite (allowed_file_decided_by_last_extension lower_latin1 _ _ H2).
    reflexivity.
Defined.

Lemma suggestion_column_nth (l : list suggestion) (i : nat) :
  suggestion_column l i = Some (nth_error l i).
Proof.
  unfold suggestion_column, py_index.
  destruct (Z.ltb_spec (Z.of_nat i) (Z.of_nat (List.length l))) as [H|H].
  - destruct (nth_error l i) eqn:E; [reflexivity|].
    apply nth_error_None in E. lia.
  - assert (E : nth_error l i = None) by (apply nth_error_None; lia).
    now rewrite E.
Qed.

Lemma analysis_row_columns (sid filename : str) (r : analysis) :
  exists rw : row.t,
    analysis_row sid filename r = Some rw
    /\ stored_suggestions rw = firstn 3 (suggestions r)
    /\ row.score rw = score r
    /\ row.word_count rw = details.word_count (breakdown r).
Proof.
  unfold analysis_row. rewrite !suggestion_column_nth. cbn [bind].
  eexists. split; [reflexivity|]. unfold stored_suggestions.
  cbn [row.suggestion_1 row.suggestion_2 row.suggestion_3 row.score
       row.word_count].
  repeat split. destruct (suggestions r) as [|a [|b [|c l]]]; reflexivity.
Qed.

(** The row that [upload] stores never fails to build and loses nothing of
    the analysis: its three suggestion columns hold all the suggestions
    returned, in order, and its score column the score, between 0 and
    100. *)
Theorem stored_row_holds_all_suggestions :
  forall (lower : str -> str) (text sid filename : str),
  exists (r : analysis) (rw : row.t),
    analyze_resume lower text = Some r
    /\ analysis_row sid filename r = Some rw
    /\ stored_suggestions rw = suggestions r
    /\ row.score rw = score r
    /\ 0 <= row.score rw <= 100.
Proof.
  intros lower text sid filename.
  destruct (analyze_resume_spec lower text) as (_ & _ & _ & sugg & _ & Hr).
  match type of Hr with _ = Some ?v => set (r := v) in * end.
  destruct (analysis_row_columns sid filename r) as (rw & Hrw & Hs & Hsc & _).
  exists r, rw. split; [exact Hr|]. split; [exact Hrw|].
  split; [|split; [exact Hsc|]].
  - rewrite Hs. subst r. cbn [suggestions].
    rewrite firstn_firstn. reflexivity.
  - rewrite Hsc. subst r. cbn [score]. lia.
Qed.

(* ================================================================= *)
(** ** Text extraction: thresholds of the PDF chain *)

Lemma count_runs_nonneg (st : bool) (s : str) : 0 <= count_runs st s.
Proof.
  revert st. induction s as [|c r IH]; intros st; cbn [count_runs]; [lia|].
  pose proof (IH true). pose proof (IH false).
  destruct (isspace c); [|destruct st]; lia.
Qed.

Lemma count_runs_space (st : bool) (a b : str) (c : codepoint) :
  isspace c = true ->
  count_runs st (a ++ c :: b) = count_runs st a + count_runs false b.
Proof.
  intros Hc. revert st. induction a as [|x a IH]; intros st;
    cbn [app count_runs].
  - rewrite Hc. lia.
  - destruct (isspace x); rewrite IH; lia.
Qed.

(** Joining texts with one whitespace character or another gives the same
    number of whitespace-separated words. *)
Lemma split_count_join (c d : codepoint) (ts : list str) :
  isspace c = true -> isspace d = true ->
  split_count (join [c] ts) = split_count (join [d] ts).
Proof.
  intros Hc Hd. unfold split_count.
  induction ts as [|t ts IH]; [reflexivity|].
  destruct ts as [|u ts]; [reflexivity|].
  change (join [c] (t :: u :: ts)) with (t ++ c :: join [c] (u :: ts)).
  change (join [d] (t :: u :: ts)) with (t ++ d :: join [d] (u :: ts)).
  rewrite (count_runs_space false t _ c Hc), (count_runs_space false t _ d Hd).
  now rewrite IH.
Qed.

Lemma ocr_loop_prefix (pages : list (option str)) (acc ts : list str) :
  ocr_loop pages acc = Some ts ->
  exists read : list str,
    ts = acc ++ read
    /\ map Some read = firstn (List.length read) pages
    /\ ((List.length read < List.length pages)%nat ->
        150 <= split_count (join [SP] ts)).
Proof.
  revert acc. induction pages as [|pg rest IH]; intros acc H.
  - cbn in H. injection H as <-. exists []. rewrite app_nil_r.
    repeat split. cbn. lia.
  - cbn [ocr_loop] in H. destruct pg as [t|]; [|discriminate].
    cbn [bind] in H.
    destruct (Z.leb_spec 150 (split_count (join [SP] (acc ++ [t])))) as [Hle|Hlt].
    + injection H as <-. exists [t]. repeat split. intros _. exact Hle.
    + destruct (IH (acc ++ [t]) H) as (read & -> & Hmap & Hstop).
      exists (t :: read). split; [now rewrite <- app_assoc|].
      split; [cbn [map List.length firstn]; now rewrite Hmap|].
      intros Hlen. apply Hstop. cbn [List.length] in Hlen. lia.
Qed.

(** The OCR fallback, when no page it reads raises: the text is made of
    the answers for the first pages of the document, three at most, joined
    by line feeds; and when it stops before the last page it may read, the
    text returned holds at least 150 whitespace-separated words. *)
Theorem ocr_reads_at_most_three_pages_and_stops_at_150_words :
  forall (w : pdf_world) (pages : list (option str)) (ts : list str),
    tesseract_available w = true ->
    ocr_pages w = Some pages ->
    ocr_loop (firstn 3 pages) [] = Some ts ->
    stage_ocr w = join [LF] ts
    /\ (List.length ts <= 3)%nat
    /\ map Some ts = firstn (List.length ts) pages
    /\ ((List.length ts < Nat.min 3 (List.length pages))%nat ->
        150 <= split_count (stage_ocr w)).
Proof.
  intros w pages ts Htess Hpages Hloop.
  assert (Hres : stage_ocr w = join [LF] ts).
  { unfold stage_ocr. rewrite Htess, Hpages. cbn [negb bind].
    now rewrite Hloop. }
  destruct (ocr_loop_prefix _ _ _ Hloop) as (read & E & Hmap & Hstop).
  cbn [app] in E. subst read.
  assert (Hlen : (List.length ts <= Nat.min 3 (List.length pages))%nat).
  { pose proof (f_equal (@List.length _) Hmap) as Hl.
    rewrite length_map, !length_firstn in Hl. lia. }
  split; [exact Hres|]. split; [lia|]. split.
  - rewrite Hmap, firstn_firstn. f_equal. lia.
  - intros Hlt. rewrite Hres.
    rewrite (split_count_join LF SP ts eq_refl eq_refl).
    apply Hstop. rewrite length_firstn. exact Hlt.
Qed.

Lemma ocr_witness :
  tesseract_available scanned_world = true
  /\ ocr_pages scanned_world
     = Some [ Some (repeat_str 80 (lit "w ")); Some (repeat_str 80 (lit "w "));
              None; Some (lit "never read") ]
  /\ ocr_loop
       (firstn 3 [ Some (repeat_str 80 (lit "w ")); Some (repeat_str 80 (lit "w "));
                   None; Some (lit "never read") ]) []
     = Some [repeat_str 80 (lit "w "); repeat_str 80 (lit "w ")]
  /\ extract_text_from_pdf scanned_world
     = join [LF] [repeat_str 80 (lit "w "); repeat_str 80 (lit "w ")]
  /\ 150 <= split_count (stage_ocr scanned_world).
Proof.
  assert (H3 : ocr_loop
       (firstn 3 [ Some (repeat_str 80 (lit "w ")); Some (repeat_str 80 (lit "w "));
                   None; Some (lit "never read") ]) []
     = Some [repeat_str 80 (lit "w "); repeat_str 80 (lit "w ")])
    by (vm_compute; reflexivity).
  destruct (ocr_reads_at_most_three_pages_and_stops_at_150_words
              scanned_world _ _ eq_refl eq_refl H3) as (Hres & _ & _ & Hstop).
  split; [reflexivity|]. split; [reflexivity|]. split; [exact H3|].
  split; [vm_compute; reflexivity|].
  apply Hstop. cbn. lia.
Defined.

Lemma stage_words (w : pdf_world) (t : str) :
  (stage_fitz w = Some t -> 50 <= split_count t)
  /\ (stage_plumber w = Some t -> 20 <= split_count t)
  /\ (stage_miner w = Some t -> 20 <= split_count t).
Proof.
  unfold stage_fitz, stage_plumber, stage_miner. repeat split.
  - destruct (fitz_doc w) as [doc|]; [|discriminate]. cbn [bind].
    destruct (for_each fitz_page_text doc) as [ts|]; [|discriminate].
    cbn [bind]. destruct (Z.leb_spec 50 (split_count (join [LF] (filter truthy ts))));
      [|discriminate]. now intros [= <-].
  - destruct (plumber_pages w) as [pages|]; [|discriminate]. cbn [bind].
    destruct (for_each _ pages) as [ts|]; [|discriminate].
    cbn [bind]. destruct (Z.leb_spec 20 (split_count (join [LF] (filter truthy ts))));
      [|discriminate]. now intros [= <-].
  - destruct (miner_text w) as [t3|]; [|discriminate]. cbn [bind].
    destruct (Z.leb_spec 20 (split_count t3)); [|discriminate].
    now intros [= <-].
Qed.

(** Whatever the libraries answer, the text extracted from a PDF is the
    output of the OCR fallback or holds at least 20 whitespace-separated
    words; so where Tesseract is not installed the result is either empty
    or at least 20 words long. *)
Theorem pdf_text_is_ocr_output_or_at_least_20_words :
  forall w : pdf_world,
    (extract_text_from_pdf w = stage_ocr w
     \/ 20 <= split_count (extract_text_from_pdf w))
    /\ (tesseract_available w = false ->
        extract_text_from_pdf w = []
        \/ 20 <= split_count (extract_text_from_pdf w)).
Proof.
  intros w.
  assert (G : extract_text_from_pdf w = stage_ocr w
              \/ 20 <= split_count (extract_text_from_pdf w)).
  { unfold extract_text_from_pdf.
    destruct (stage_fitz w) as [t|] eqn:E1.
    { right. pose proof (proj1 (stage_words w t) E1). lia. }
    destruct (stage_plumber w) as [t|] eqn:E2.
    { right. exact (proj1 (proj2 (stage_words w t)) E2). }
    destruct (stage_miner w) as [t|] eqn:E3.
    { right. exact (proj2 (proj2 (stage_words w t)) E3). }
    left. reflexivity. }
  split; [exact G|]. intros Ht. destruct G as [G|G]; [left|right; exact G].
  rewrite G. unfold stage_ocr. now rewrite Ht.
Qed.

Lemma pdf_text_witness :
  tesseract_available
    (mk_pdf_world None (Some [Some (repeat_str 25 (lit "word ")); None])
                  None false None) = false
  /\ extract_text_from_pdf
       (mk_pdf_world None (Some [Some (repeat_str 25 (lit "word ")); None])
                     None false None) = [].
Proof.
  split; [reflexivity|].
  destruct (proj2 (pdf_text_is_ocr_output_or_at_least_20_words
             (mk_pdf_world None (Some [Some (repeat_str 25 (lit "word ")); None])
                           None false None)) eq_refl) as [H|H].
  - exact H.
  - vm_compute in H. exfalso. apply H. reflexivity.
Defined.

(* ================================================================= *)
(** ** The dispatcher agrees with the upload filter *)

Lemma split_on_app_sep (sep : codepoint) (a b : str) :
  split_on sep (a ++ sep :: b) = split_on sep a ++ split_on sep b.
Proof.
  induction a as [|c a IH]; cbn [app split_on].
  - now rewrite N.eqb_refl.
  - destruct (c =? sep)%N; rewrite IH; [reflexivity|].
    destruct (split_on sep a) as [|l ls] eqn:E; [|reflexivity].
    destruct a as [|x a]; cbn [split_on] in E; [discriminate|].
    destruct (x =? sep)%N; [discriminate|].
    destruct (split_on sep a); discriminate.
Qed.

Lemma path_name_last_component (dir name : str) :
  Forall (fun c => c <> SLASH) name -> name <> [] -> name <> [DOT] ->
  path_name (dir ++ SLASH :: name) = name.
Proof.
  intros Hs Hne Hnd. unfold path_name.
  rewrite split_on_app_sep, (split_on_absent SLASH name Hs), filter_app.
  cbn [filter].
  assert (E : truthy name && negb (str_eqb name [DOT]) = true).
  { destruct name as [|c r]; [congruence|]. cbn [truthy andb].
    destruct (str_eqb (c :: r) [DOT]) eqn:Eq; [|reflexivity].
    apply str_eqb_eq in Eq. congruence. }
  rewrite E. apply last_last.
Qed.

Lemma path_suffix_of_name (dir stem ext : str) :
  stem <> [] ->
  Forall (fun c => c <> SLASH) stem ->
  Forall (fun c => c <> SLASH /\ c <> DOT) ext ->
  path_suffix (dir ++ SLASH :: stem ++ DOT :: ext)
  = if truthy ext then DOT :: ext else [].
Proof.
  intros Hstem Hs He. unfold path_suffix.
  rewrite path_name_last_component.
  - rewrite rsplit_last_app.
    + destruct stem; [congruence | reflexivity].
    + eapply Forall_impl; [|exact He]. intros c [_ H]. exact H.
  - apply Forall_app. split; [exact Hs|]. constructor; [discriminate|].
    eapply Forall_impl; [|exact He]. intros c [H _]. exact H.
  - destruct stem; discriminate.
  - destruct stem as [|c [|d r]]; [congruence | destruct ext | ]; discriminate.
Qed.

(** The upload filter and the dispatcher know the same extensions.  For a
    file [stem.ext] in any directory, with a non-empty stem: what
    [allowed_file] rejects, [extract_text_auto] answers with the empty
    string without calling an extractor; what it accepts is handed to the
    PDF extractor for pdf, the image extractor for jpg, jpeg and png, and the
    DOCX extractor for docx. *)
Theorem dispatcher_agrees_with_upload_filter :
  forall (lower from_pdf from_image from_docx : str -> str)
         (dir stem ext : str),
    lower [] = [] ->
    lower (DOT :: ext) = DOT :: lower ext ->
    stem <> [] ->
    Forall (fun c => c <> SLASH) stem ->
    Forall (fun c => c <> SLASH /\ c <> DOT) ext ->
    let name := stem ++ DOT :: ext in
    let path := dir ++ SLASH :: name in
    let text := extract_text_auto lower from_pdf from_image from_docx path in
    text
    = (if str_eqb (lower ext) (lit "pdf") then from_pdf path
       else if mem_str (lower ext) (map lit ["jpg"; "jpeg"; "png"]%string)
       then from_image path
       else if str_eqb (lower ext) (lit "docx") then from_docx path
       else [])
    /\ (allowed_file lower name = Some false -> text = [])
    /\ (allowed_file lower name = Some true ->
        text = from_pdf path \/ text = from_image path
        \/ text = from_docx path).
Proof.
  intros lower from_pdf from_image from_docx dir stem ext
         Hnil Hdot Hstem Hs He name path text.
  assert (Hext : Forall (fun c => c <> DOT) ext)
    by (eapply Forall_impl; [|exact He]; intros c [_ H]; exact H).
  assert (Hallowed : allowed_file lower name
                     = Some (mem_str (lower ext) ALLOWED_EXTENSIONS)).
  { unfold allowed_file, name.
    assert (E : contains (stem ++ DOT :: ext) [DOT] = true)
      by (apply contains_iff; exists stem, ext; reflexivity).
    rewrite E. unfold rsplit1.
    rewrite (rsplit_last_app DOT stem ext Hext). reflexivity. }
  assert (Htext :
    text
    = (if str_eqb (lower ext) (lit "pdf") then from_pdf path
       else if mem_str (lower ext) (map lit ["jpg"; "jpeg"; "png"]%string)
       then from_image path
       else if str_eqb (lower ext) (lit "docx") then from_docx path
       else [])).
  { subst text. unfold extract_text_auto. subst path name.
    rewrite (path_suffix_of_name dir stem ext Hstem Hs He).
    destruct ext as [|c ext']; cbn [truthy].
    - rewrite Hnil. reflexivity.
    - rewrite Hdot. reflexivity. }
  split; [exact Htext|]. rewrite Hallowed, Htext.
  unfold ALLOWED_EXTENSIONS, mem_str. cbn [map existsb].
  destruct (str_eqb (lower ext) (lit "pdf")),
    (str_eqb (lower ext) (lit "jpg")), (str_eqb (lower ext) (lit "jpeg")),
    (str_eqb (lower ext) (lit "png")), (str_eqb (lower ext) (lit "docx"));
    cbn [orb]; split; intros H; try discriminate H; auto.
Qed.

Lemma dispatcher_witness :
  lower_latin1 [] = []
  /\ lower_latin1 (DOT :: lit "PDF") = DOT :: lower_latin1 (lit "PDF")
  /\ lit "My.CV" <> []
  /\ Forall (fun c => c <> SLASH) (lit "My.CV")
  /\ Forall (fun c => c <> SLASH /\ c <> DOT) (lit "PDF")
  /\ extract_text_auto lower_latin1
       (fun _ => lit "from pdf") (fun _ => lit "from image")
       (fun _ => lit "from docx")
       (lit "/tmp/up" ++ SLASH :: lit "My.CV" ++ DOT :: lit "PDF")
     = lit "from pdf".
Proof.
  assert (H3 : lit "My.CV" <> []) by discriminate.
  assert (H4 : Forall (fun c => c <> SLASH) (lit "My.CV"))
    by (repeat constructor; discriminate).
  assert (H5 : Forall (fun c => c <> SLASH /\ c <> DOT) (lit "PDF"))
    by (repeat constructor; discriminate).
  split; [reflexivity|]. split; [reflexivity|]. split; [exact H3|].
  split; [exact H4|]. split; [exact H5|].
  exact (proj1 (dispatcher_agrees_with_upload_filter lower_latin1
                  (fun _ => lit "from pdf") (fun _ => lit "from image")
                  (fun _ => lit "from docx") (lit "/tmp/up") (lit "My.CV")
                  (lit "PDF") eq_refl eq_refl H3 H4 H5)).
Defined.

(* ================================================================= *)
(** ** The Cleaner: what the output is made of *)

Lemma sub_runs_app_other (cls : codepoint -> bool) (st : bool) (a b : str)
    (c : codepoint) :
  cls c = false ->
  sub_runs cls st (a ++ c :: b) = sub_runs cls st a ++ c :: sub_runs cls false b.
Proof.
  intros Hc. revert st. induction a as [|x a IH]; intros st;
    cbn [app sub_runs].
  - now rewrite Hc.
  - destruct (cls x); [destruct st|]; rewrite IH; reflexivity.
Qed.

Lemma sub_runs_after_other (cls : codepoint -> bool) (st : bool) (r b : str)
    (x : codepoint) :
  cls x = false ->
  sub_runs cls st ((r ++ [x]) ++ b)
  = sub_runs cls st (r ++ [x]) ++ sub_runs cls false b.
Proof.
  intros Hx. rewrite <- app_assoc. cbn [app].
  rewrite !(sub_runs_app_other cls st r _ x Hx). cbn [sub_runs].
  now rewrite <- app_assoc.
Qed.

Lemma tab_nbsp_is_space (c : codepoint) :
  isspace c = false -> is_tab_nbsp c = false.
Proof.
  intros H. destruct (is_tab_nbsp c) eqn:E; [|reflexivity].
  unfold is_tab_nbsp in E. apply orb_true_iff in E.
  destruct E as [E|E]; apply N.eqb_eq in E; subst c; discriminate.
Qed.

Lemma rstrip_fixed (r : str) (x : codepoint) :
  isspace x = false -> rstrip (r ++ [x]) = r ++ [x].
Proof.
  intros Hx. induction r as [|c r IH]; cbn [app rstrip].
  - now rewrite Hx.
  - rewrite IH. destruct (r ++ [x]) eqn:E; [|reflexivity].
    destruct r; discriminate.
Qed.

Lemma edge_clean_strip_fixed (ln : str) : edge_clean ln -> strip ln = ln.
Proof.
  intros [(c & r & -> & Hc) (r' & x & E & Hx)]. unfold strip.
  cbn [lstrip]. rewrite Hc, E. exact (rstrip_fixed r' x Hx).
Qed.

Lemma stripped_edge_clean (ln : str) :
  strip ln <> [] -> edge_clean (strip ln).
Proof.
  intros Hne. split.
  - pose proof (rstrip_no_leading_space _ (lstrip_no_leading_space ln)) as H.
    fold (strip ln) in H. destruct (strip ln) as [|c r]; [congruence|].
    exists c, r. split; [reflexivity|]. cbn [no_leading_space] in H.
    now apply negb_true_iff in H.
  - destruct (exists_last Hne) as (r & x & E). exists r, x.
    split; [exact E|].
    exact (rstrip_last_not_space (lstrip ln) r x E).
Qed.

Lemma kept_lines_edge_clean (f : str -> bool) (lines : list str) :
  (forall ln, f ln = true -> truthy ln = true) ->
  Forall edge_clean (filter f (map strip lines)).
Proof.
  intros Hf. apply Forall_forall. intros ln Hin.
  apply filter_In in Hin. destruct Hin as [Hin Hk].
  apply in_map_iff in Hin. destruct Hin as (l0 & <- & _).
  apply stripped_edge_clean. specialize (Hf _ Hk).
  destruct (strip l0); [discriminate | discriminate].
Qed.

Lemma collapse_tab_edge_clean (ln : str) :
  edge_clean ln -> edge_clean (sub_runs is_tab_nbsp false ln).
Proof.
  intros [(c & r & E1 & Hc) (r' & x & E2 & Hx)]. split.
  - rewrite E1. cbn [sub_runs]. rewrite (tab_nbsp_is_space c Hc). eauto.
  - rewrite E2.
    rewrite (sub_runs_app_other is_tab_nbsp false r' [] x
               (tab_nbsp_is_space x Hx)).
    cbn [sub_runs]. eauto.
Qed.

Lemma collapse_space_edge_clean (ln : str) :
  edge_clean ln -> edge_clean (sub_runs isspace false ln).
Proof.
  intros [(c & r & E1 & Hc) (r' & x & E2 & Hx)]. split.
  - rewrite E1. cbn [sub_runs]. rewrite Hc. eauto.
  - rewrite E2. rewrite (sub_runs_app_other isspace false r' [] x Hx).
    cbn [sub_runs]. eauto.
Qed.

Lemma collapse_line_edge_clean (ln : str) :
  edge_clean ln -> edge_clean (collapse_line ln).
Proof.
  intros H. unfold collapse_line, re_sub_runs.
  apply collapse_space_edge_clean, collapse_tab_edge_clean, H.
Qed.

Lemma join_edge_clean (sep : codepoint) (ps : list str) :
  ps <> [] -> Forall edge_clean ps -> edge_clean (join [sep] ps).
Proof.
  intros Hne H. induction H as [|p ps Hp Hps IH]; [congruence|].
  destruct ps as [|q ps]; [exact Hp|].
  change (join [sep] (p :: q :: ps)) with (p ++ sep :: join [sep] (q :: ps)).
  destruct Hp as [(c & r & -> & Hc) _].
  destruct (IH ltac:(discriminate)) as [_ (r' & x & E & Hx)].
  split.
  - exists c, (r ++ sep :: join [sep] (q :: ps)). split; [reflexivity | exact Hc].
  - exists ((c :: r) ++ sep :: r'), x. split; [|exact Hx].
    rewrite E. rewrite <- app_assoc. reflexivity.
Qed.

Lemma sub_tab_join (ps : list str) :
  sub_runs is_tab_nbsp false (join [LF] ps)
  = join [LF] (map (sub_runs is_tab_nbsp false) ps).
Proof.
  induction ps as [|p ps IH]; [reflexivity|].
  destruct ps as [|q ps]; [reflexivity|].
  change (join [LF] (p :: q :: ps)) with (p ++ LF :: join [LF] (q :: ps)).
  rewrite (sub_runs_app_other is_tab_nbsp false p _ LF eq_refl), IH.
  reflexivity.
Qed.

Lemma sub_space_join (ps : list str) :
  Forall edge_clean ps ->
  sub_runs isspace false (join [LF] ps)
  = join [SP] (map (sub_runs isspace false) ps).
Proof.
  induction 1 as [|p ps Hp Hps IH]; [reflexivity|].
  destruct ps as [|q ps]; [reflexivity|].
  change (join [LF] (p :: q :: ps)) with (p ++ LF :: join [LF] (q :: ps)).
  destruct Hp as [_ (r & x & -> & Hx)].
  rewrite (sub_runs_after_other isspace false r _ x Hx).
  destruct (join_edge_clean LF (q :: ps) ltac:(discriminate) Hps)
    as [(c & t & E & Hc) _].
  change (join [SP] (map (sub_runs isspace false) ((r ++ [x]) :: q :: ps)))
    with (sub_runs isspace false (r ++ [x])
          ++ SP :: join [SP] (map (sub_runs isspace false) (q :: ps))).
  rewrite <- IH, E. f_equal. cbn [sub_runs].
  change (isspace LF) with true. cbn iota. now rewrite Hc.
Qed.

Lemma collapse_join (ps : list str) :
  Forall edge_clean ps ->
  strip (re_sub_runs isspace (re_sub_runs is_tab_nbsp (join [LF] ps)))
  = join [SP] (map collapse_line ps).
Proof.
  intros H. unfold re_sub_runs. rewrite sub_tab_join.
  rewrite sub_space_join.
  - rewrite map_map. fold re_sub_runs.
    change (fun x => sub_runs isspace false (sub_runs is_tab_nbsp false x))
      with collapse_line.
    destruct ps as [|p ps]; [reflexivity|].
    apply edge_clean_strip_fixed, join_edge_clean.
    + discriminate.
    + apply Forall_map. eapply Forall_impl; [|exact H].
      exact collapse_line_edge_clean.
  - apply Forall_map. eapply Forall_impl; [|exact H].
    exact collapse_tab_edge_clean.
Qed.

(** The cleaned text is the kept lines, each with its inner whitespace
    collapsed, joined by single spaces. *)
Lemma clean_is_join_of_kept_lines (raw_text : str) :
  _clean_extracted_text raw_text
  = join [SP] (map collapse_line (filtered_lines raw_text)).
Proof.
  unfold _clean_extracted_text.
  destruct raw_text as [|c r] eqn:E; [reflexivity|]. rewrite <- E.
  replace (truthy raw_text) with true by (subst; reflexivity).
  cbn [negb]. cbv zeta. apply collapse_join.
  unfold filtered_lines, stripped_lines. apply kept_lines_edge_clean.
  intros ln H. unfold keep_line in H.
  destruct (truthy ln); [reflexivity | discriminate].
Qed.

Lemma contains_join_map (sep : str) (f : str -> str) (ps : list str)
    (ln : str) :
  In ln ps -> contains (join sep (map f ps)) (f ln) = true.
Proof.
  intros Hin. apply contains_iff.
  induction ps as [|p ps IH]; [destruct Hin|].
  destruct ps as [|q ps].
  - destruct Hin as [->|[]]. exists [], []. cbn. now rewrite app_nil_r.
  - change (join sep (map f (p :: q :: ps)))
      with (f p ++ sep ++ join sep (map f (q :: ps))).
    destruct Hin as [->|Hin].
    + exists [], (sep ++ join sep (map f (q :: ps))). reflexivity.
    + destruct (IH Hin) as (a & b & E). rewrite E.
      exists (f p ++ sep ++ a), b. now rewrite <- !app_assoc.
Qed.

(** C6: the Cleaner drops exactly the non-empty lines that occur six times
    or more in the document and are at most 80 characters long.  The text it
    returns is made of the other non-empty trimmed lines, in order, each with
    its inner whitespace collapsed, joined by single spaces.  So a line
    occurring six times or more, of length at most 80, is not among the
    lines the output is made of, and a line occurring five times, as any
    line longer than 80 characters, is kept and shows in the output. *)
Theorem C6_cleaner_drops_short_lines_repeated_six_times :
  forall raw_text : str,
    let lines := stripped_lines raw_text in
    let kept := filter (survives lines) lines in
    filtered_lines raw_text = kept
    /\ _clean_extracted_text raw_text = join [SP] (map collapse_line kept)
    /\ (forall ln : str,
           6 <= frequency lines ln -> len ln <= 80 -> ~ In ln kept)
    /\ (forall ln : str,
           ln <> [] -> In ln lines -> frequency lines ln = 5 ->
           In ln kept
           /\ contains (_clean_extracted_text raw_text) (collapse_line ln)
              = true)
    /\ (forall ln : str,
           ln <> [] -> In ln lines -> 80 < len ln ->
           In ln kept
           /\ contains (_clean_extracted_text raw_text) (collapse_line ln)
              = true).
Proof.
  intros raw_text lines kept.
  pose proof (filtered_lines_survivors raw_text) as E. fold lines kept in E.
  pose proof (clean_is_join_of_kept_lines raw_text) as Hout.
  rewrite E in Hout.
  split; [exact E|]. split; [exact Hout|]. rewrite Hout. repeat split.
  - intros ln Hf Hl Hin. apply filter_In in Hin. destruct Hin as [_ Hs].
    unfold survives in Hs.
    apply Z.leb_le in Hf, Hl. rewrite Hf, Hl in Hs.
    rewrite andb_false_r in Hs. discriminate.
  - apply filter_In. split; [assumption|].
    unfold survives. match goal with H : frequency _ _ = 5 |- _ => rewrite H end.
    destruct ln; [congruence | reflexivity].
  - apply contains_join_map. apply filter_In. split; [assumption|].
    unfold survives. match goal with H : frequency _ _ = 5 |- _ => rewrite H end.
    destruct ln; [congruence | reflexivity].
  - apply filter_In. split; [assumption|].
    unfold survives.
    match goal with H : 80 < len _ |- _ => apply Z.leb_gt in H; rewrite H end.
    rewrite andb_false_r. destruct ln; [congruence | reflexivity].
  - apply contains_join_map. apply filter_In. split; [assumption|].
    unfold survives.
    match goal with H : 80 < len _ |- _ => apply Z.leb_gt in H; rewrite H end.
    rewrite andb_false_r. destruct ln; [congruence | reflexivity].
Qed.

Lemma C6_witness :
  (6 <= frequency (stripped_lines doc_footers) (lit "Page 1")
   /\ len (lit "Page 1") <= 80
   /\ ~ In (lit "Page 1")
          (filter (survives (stripped_lines doc_footers))
                  (stripped_lines doc_footers)))
  /\ (lit "body" <> []
      /\ In (lit "body") (stripped_lines doc_footers)
      /\ frequency (stripped_lines doc_footers) (lit "body") = 5
      /\ In (lit "body")
            (filter (survives (stripped_lines doc_footers))
                    (stripped_lines doc_footers))
      /\ contains (_clean_extracted_text doc_footers)
                  (collapse_line (lit "body")) = true)
  /\ _clean_extracted_text doc_footers = lit "body body body body body".
Proof.
  assert (H1 : 6 <= frequency (stripped_lines doc_footers) (lit "Page 1"))
    by (vm_compute; discriminate).
  assert (H2 : len (lit "Page 1") <= 80) by (vm_compute; discriminate).
  assert (H3 : lit "body" <> []) by discriminate.
  assert (H4 : In (lit "body") (stripped_lines doc_footers))
    by (vm_compute; right; left; reflexivity).
  assert (H5 : frequency (stripped_lines doc_footers) (lit "body") = 5)
    by (vm_compute; reflexivity).
  destruct (C6_cleaner_drops_short_lines_repeated_six_times doc_footers)
    as (_ & Hout & Hdrop & Hkeep & _).
  destruct (Hkeep (lit "body") H3 H4 H5) as [Hin Hshow].
  split; [split; [exact H1|]; split; [exact H2|]; exact (Hdrop _ H1 H2)|].
  split; [repeat split; assumption|].
  rewrite Hout. vm_compute. reflexivity.
Defined.
